(** * sf_kpi_jwt_runner: rotation-tolerant JWT-bearer token acquisition

    A shallow embedding of the key-ring helpers and of
    [get_access_token_via_jwt] from [sf_kpi_jwt_runner.py], together with
    the properties of the acquisition core.

    Conventions.
    - A Python [str] is a Rocq [string]; a character is a code point below
      256, so [py_isspace] lists exactly the code points below 256 for
      which [str.isspace] holds.
    - A Python value that comes out of [json.load] is a [pyval].
    - Everything the program asks of its surroundings (environment
      variables, files, the clock, PyJWT, the HTTP client) is a field of
      [environment]; the fields that can answer differently from one call
      to the next receive the list of effects performed so far.
    - Effects are logged in [trace], most recent last. *)

From Stdlib Require Import String Ascii ZArith List Bool Lia.
From Stdlib Require Import Floats.SpecFloat.
From stdpp Require Import base option list gmap strings pretty.

Import ListNotations.
Set Warnings "-register-all".
Local Open Scope string_scope.
Local Open Scope Z_scope.

(** ** Python strings *)

Module PyStr.

(** [str.isspace] on one character (code points 9-13, 28-32, 0x85, 0xA0). *)
Definition py_isspace (c : ascii) : bool :=
  let n := N_of_ascii c in
  ((9 <=? n) && (n <=? 13) || (28 <=? n) && (n <=? 32)
   || (n =? 133) || (n =? 160))%N.

Fixpoint lstrip (s : string) : string :=
  match s with
  | EmptyString => EmptyString
  | String c s' => if py_isspace c then lstrip s' else s
  end.

Fixpoint rstrip (s : string) : string :=
  match s with
  | EmptyString => EmptyString
  | String c s' =>
      match rstrip s' with
      | EmptyString => if py_isspace c then EmptyString else String c EmptyString
      | r => String c r
      end
  end.

(** [s.strip()] *)
Definition strip (s : string) : string := rstrip (lstrip s).

(** [s.split(sep)] for a one-character separator. *)
Fixpoint split (sep : ascii) (s : string) : list string :=
  match s with
  | EmptyString => [EmptyString]
  | String c s' =>
      if Ascii.eqb c sep then EmptyString :: split sep s'
      else match split sep s' with
           | p :: ps => String c p :: ps
           | [] => [String c EmptyString]
           end
  end.

(** [s.split(sep, maxsplit)] for a one-character separator. *)
Fixpoint split_max (sep : ascii) (maxsplit : nat) (s : string) {struct s}
  : list string :=
  match maxsplit with
  | O => [s]
  | S n =>
      match s with
      | EmptyString => [EmptyString]
      | String c s' =>
          if Ascii.eqb c sep then EmptyString :: split_max sep n s'
          else match split_max sep maxsplit s' with
               | p :: ps => String c p :: ps
               | [] => [String c EmptyString]
               end
      end
  end.

(** [sep in s] for a one-character [sep]. *)
Fixpoint contains (sep : ascii) (s : string) : bool :=
  match s with
  | EmptyString => false
  | String c s' => Ascii.eqb c sep || contains sep s'
  end.

(** Truth value of a string: [bool(s)]. *)
Definition nonempty (s : string) : bool :=
  match s with EmptyString => false | _ => true end.

(** The text before, and after, the first occurrence of [sep]
    (the whole string and nothing when [sep] does not occur). *)
Fixpoint before_first (sep : ascii) (s : string) : string :=
  match s with
  | EmptyString => EmptyString
  | String c s' => if Ascii.eqb c sep then EmptyString
                   else String c (before_first sep s')
  end.

Fixpoint after_first (sep : ascii) (s : string) : string :=
  match s with
  | EmptyString => EmptyString
  | String c s' => if Ascii.eqb c sep then s' else after_first sep s'
  end.

End PyStr.
Import PyStr.

(** ** Python values, exceptions and results *)

(** What [json.load] and [resp.json()] can return. A float is kept as its
    IEEE 754 decomposition; only its being zero or not is ever observed. *)
Inductive pyval : Type :=
| VNone
| VBool (b : bool)
| VInt (z : Z)
| VFloat (f : spec_float)
| VStr (s : string)
| VList (l : list pyval)
| VDict (m : gmap string pyval).

(** [bool(v)], as tested by [if v:]. *)
Definition truthy (v : pyval) : bool :=
  match v with
  | VNone => false
  | VBool b => b
  | VInt z => negb (z =? 0)
  | VFloat f => match f with S754_zero _ => false | _ => true end
  | VStr s => nonempty s
  | VList l => match l with [] => false | _ => true end
  | VDict m => negb (size m =? 0)%nat
  end.

(** [s == v] for a [str] [s]: a string equals only an equal string. *)
Definition str_eq (s : string) (v : pyval) : bool :=
  match v with
  | VStr t => String.eqb s t
  | _ => false
  end.

(** An instance of a subclass of [Exception]: [type(e).__name__] and
    [str(e)]. *)
Record pyexc : Type := PyExc { exc_type : string; exc_text : string }.

(** What a statement can raise: an [Exception], which [except Exception]
    catches, or the [SystemExit] of [sys.exit(msg)], which it does not. *)
Inductive raised : Type :=
| Exception (e : pyexc)
| SystemExit (msg : string).

Inductive result (A : Type) : Type :=
| Ok (a : A)
| Raise (r : raised).
Arguments Ok {A} a.
Arguments Raise {A} r.

(** ** The surroundings of the program *)

(** The claims of the JWT assertion, [payload] in the source. *)
Record jwt_payload : Type := JwtPayload {
  iss : string;
  sub : string;
  aud : string;
  exp : Z
}.

(** The [requests.Response] fields the program reads. *)
Record response : Type := Response {
  resp_ok : bool;
  status_code : Z;
  text : string;
  resp_json : pyexc + pyval
}.

Inductive event : Type :=
| EvOpenRead (path : string)
| EvMkdir (path : string)
| EvOpenWrite (path : string)
| EvJsonDump (v : pyval)
| EvPost (url : string) (assertion : string).

(** What the preference snapshot file holds: nothing (no such file), or a
    text, represented by what [json.load] makes of it. *)
Inductive snapshot_file : Type :=
| NoFile
| FileText (parsed : pyexc + pyval).

(** A failure of [json.dump(m, f)] on a file just opened for writing: the
    write breaks off with [dump_exc], and the truncated text left behind
    makes [json.load] raise [residue_exc]. *)
Record dump_fault : Type := DumpFault { dump_exc : pyexc; residue_exc : pyexc }.

Record environment : Type := Environment {
  (** [os.environ.get(name)] *)
  environ : string -> option string;
  (** [os.path.expanduser], [os.path.dirname] and [repr] of a [str] *)
  expanduser : string -> string;
  dirname : string -> string;
  py_repr : string -> string;
  (** [open(path, "r")] is refused (permissions, a directory, ...) *)
  read_denied : list event -> string -> option pyexc;
  (** [open(path, "rb")] followed by [f.read()] *)
  read_bytes : list event -> string -> pyexc + list Byte.byte;
  (** [int(time.time())] *)
  clock : list event -> Z;
  (** [jwt.encode(payload, key, algorithm="RS256", headers={"kid": kid})] *)
  jwt_encode : jwt_payload -> list Byte.byte -> string -> pyexc + string;
  (** [requests.post(url, data={grant_type, assertion}, timeout=30)] *)
  requests_post : list event -> string -> string -> pyexc + response;
  (** [pathlib.Path(dir).mkdir(parents=True, exist_ok=True)] fails *)
  mkdir_fault : list event -> string -> option pyexc;
  (** [open(path, "w")] fails *)
  open_write_fault : list event -> string -> option pyexc;
  (** [json.dump(m, f, indent=2)] fails *)
  json_dump_fault : list event -> pyval -> option dump_fault
}.

(** The state a run acts on: the snapshot file at [KEYMAP_PATH], the log of
    effects, and the object bound to the local variable [keymap] of
    [get_access_token_via_jwt] (it is mutated in place, and a mutation
    survives an exception raised after it). *)
Record state : Type := State {
  snapshot : snapshot_file;
  trace : list event;
  keymap : pyval
}.

Definition log (ev : event) (st : state) : state :=
  {| snapshot := snapshot st; trace := trace st ++ [ev]; keymap := keymap st |}.

Definition set_snapshot (f : snapshot_file) (st : state) : state :=
  {| snapshot := f; trace := trace st; keymap := keymap st |}.

Definition set_keymap (v : pyval) (st : state) : state :=
  {| snapshot := snapshot st; trace := trace st; keymap := v |}.

(** ** Python operations on values *)

(** [type(v).__name__] *)
Definition type_name (v : pyval) : string :=
  match v with
  | VNone => "NoneType"
  | VBool _ => "bool"
  | VInt _ => "int"
  | VFloat _ => "float"
  | VStr _ => "str"
  | VList _ => "list"
  | VDict _ => "dict"
  end.

(** [v.get(key)]: only a dict has the method. *)
Definition py_get (v : pyval) (key : string) : pyexc + pyval :=
  match v with
  | VDict m => inr (default VNone (m !! key))
  | _ => inl (PyExc "AttributeError"
                ("'" +:+ type_name v +:+ "' object has no attribute 'get'"))
  end.

(** [v[key] = x] for a [str] key: the value after the assignment. *)
Definition py_setitem (v : pyval) (key : string) (x : pyval) : pyexc + pyval :=
  match v with
  | VDict m => inr (VDict (<[key := x]> m))
  | VList _ =>
      inl (PyExc "TypeError" "list indices must be integers or slices, not str")
  | _ => inl (PyExc "TypeError"
                ("'" +:+ type_name v +:+ "' object does not support item assignment"))
  end.

(** [v[key]] for a [str] key; [repr_key] is [repr(key)], the text of a
    [KeyError]. *)
Definition py_getitem (repr_key : string) (v : pyval) (key : string)
  : pyexc + pyval :=
  match v with
  | VDict m => match m !! key with
               | Some x => inr x
               | None => inl (PyExc "KeyError" repr_key)
               end
  | VList _ =>
      inl (PyExc "TypeError" "list indices must be integers or slices, not str")
  | VStr _ =>
      inl (PyExc "TypeError" "string indices must be integers, not 'str'")
  | _ => inl (PyExc "TypeError"
                ("'" +:+ type_name v +:+ "' object is not subscriptable"))
  end.

(** ** A state-and-exception monad for the statements of the program *)

Definition M (A : Type) : Type := state -> result A * state.

#[export] Instance M_ret : MRet M := fun A a st => (Ok a, st).

#[export] Instance M_bind : MBind M := fun A B k c st =>
  match c st with
  | (Ok a, st') => k a st'
  | (Raise r, st') => (Raise r, st')
  end.

Definition raise {A : Type} (r : raised) : M A := fun st => (Raise r, st).

(** [sys.exit(msg)] *)
Definition sys_exit {A : Type} (msg : string) : M A := raise (SystemExit msg).

(** [try: body  except Exception as e: handler e] *)
Definition try_except {A : Type} (body : M A) (handler : pyexc -> M A) : M A :=
  fun st =>
    match body st with
    | (Raise (Exception e), st') => handler e st'
    | other => other
    end.

(** A library call that raises or returns. *)
Definition lift_sum {A : Type} (r : pyexc + A) : M A :=
  match r with
  | inl e => raise (Exception e)
  | inr a => mret a
  end.

Definition fail_if (fault : option pyexc) : M unit :=
  match fault with
  | Some e => raise (Exception e)
  | None => mret tt
  end.

(** [if c: stmt] *)
Definition when (c : bool) (stmt : M unit) : M unit :=
  if c then stmt else mret tt.

Definition effect (ev : event) : M unit := fun st => (Ok tt, log ev st).

Definition history : M (list event) := fun st => (Ok (trace st), st).

Definition read_snapshot : M snapshot_file := fun st => (Ok (snapshot st), st).

Definition write_snapshot (f : snapshot_file) : M unit :=
  fun st => (Ok tt, set_snapshot f st).

Definition read_keymap : M pyval := fun st => (Ok (keymap st), st).

Definition assign_keymap (v : pyval) : M unit :=
  fun st => (Ok tt, set_keymap v st).

(** ** The program *)

Definition key_entry : Type := string * string.

(** What [last_err] holds once assigned: [(resp.status_code, resp.text)] or
    [(type(e).__name__, str(e))]. *)
Inductive last_error : Type :=
| StatusError (status : Z) (body : string)
| RaisedError (name : string) (message : string).

(** How one pass through the loop body ends: by [return], or by assigning
    [last_err] and going on to the next candidate. *)
Inductive iteration : Type :=
| Returns (access_token instance_url : pyval)
| Records (err : last_error).

Section Runner.

Context (E : environment).

(** *** Configuration read at import time (lines 15-23) *)

Definition getenv (name default_value : string) : string :=
  default default_value (environ E name).

Definition SF_CLIENT_ID : string := strip (getenv "SF_CLIENT_ID" "").
Definition SF_JWT_USERNAME : string := strip (getenv "SF_JWT_USERNAME" "").
Definition SF_DOMAIN : string := strip (getenv "SF_DOMAIN" "login").
Definition SF_PRIVATE_KEY_PATH : string := strip (getenv "SF_PRIVATE_KEY_PATH" "").
Definition SF_KEYS : string := strip (getenv "SF_KEYS" "").
Definition TENANT_ID : string := strip (getenv "TENANT_ID" "default").
Definition KEYMAP_PATH : string :=
  expanduser E (getenv "KEYMAP_PATH" "~/.sf_kpi_keymap.json").

(** Lines 28-31. *)
Definition check_config : M unit :=
  when (negb (nonempty SF_CLIENT_ID) || negb (nonempty SF_JWT_USERNAME))
       (sys_exit "Missing SF_CLIENT_ID or SF_JWT_USERNAME");;
  when (negb (nonempty SF_KEYS) && negb (nonempty SF_PRIVATE_KEY_PATH))
       (sys_exit "Provide either SF_KEYS (key_id:path,...) or SF_PRIVATE_KEY_PATH").

(** *** Key-ring helpers *)

(** [open(KEYMAP_PATH, "r", encoding="utf-8")]: the file object, i.e. what
    [json.load] will make of its text. *)
Definition open_keymap_r : M (pyexc + pyval) :=
  h ← history;
  effect (EvOpenRead KEYMAP_PATH);;
  fail_if (read_denied E h KEYMAP_PATH);;
  f ← read_snapshot;
  match f with
  | NoFile =>
      raise (Exception (PyExc "FileNotFoundError"
        ("[Errno 2] No such file or directory: " +:+ py_repr E KEYMAP_PATH)))
  | FileText parsed => mret parsed
  end.

Definition load_keymap : M pyval :=
  try_except
    (f ← open_keymap_r;
     lift_sum f)
    (fun _ => mret (VDict ∅)).

(** [pathlib.Path(d).mkdir(parents=True, exist_ok=True)] *)
Definition mkdir (d : string) : M unit :=
  h ← history;
  effect (EvMkdir d);;
  fail_if (mkdir_fault E h d).

(** [open(KEYMAP_PATH, "w", encoding="utf-8")]: once opened the file is
    empty, and [json.load] rejects an empty text. *)
Definition open_keymap_w : M unit :=
  h ← history;
  effect (EvOpenWrite KEYMAP_PATH);;
  fail_if (open_write_fault E h KEYMAP_PATH);;
  write_snapshot (FileText (inl (PyExc "JSONDecodeError"
    "Expecting value: line 1 column 1 (char 0)"))).

(** [json.dump(m, f, indent=2)] and the closing of [f]; a text that was
    written whole is read back by [json.load] as [m]. *)
Definition json_dump (m : pyval) : M unit :=
  h ← history;
  effect (EvJsonDump m);;
  match json_dump_fault E h m with
  | Some fault =>
      write_snapshot (FileText (inl (residue_exc fault)));;
      raise (Exception (dump_exc fault))
  | None => write_snapshot (FileText (inr m))
  end.

Definition save_keymap (m : pyval) : M unit :=
  try_except
    (let d := dirname E KEYMAP_PATH in
     mkdir (if nonempty d then d else ".");;
     open_keymap_w;;
     json_dump m)
    (fun _ => mret tt).

(** The loop of [parse_keyring] over the comma-separated parts, [keys]
    being the list built so far. *)
Fixpoint parse_parts (parts : list string) (keys : list key_entry)
  : result (list key_entry) :=
  match parts with
  | [] => Ok keys
  | part :: rest =>
      let part := strip part in
      if negb (nonempty part) then parse_parts rest keys
      else if negb (contains ":" part) then parse_parts rest keys
      else match split_max ":" 1 part with
           | [kid; path] =>
               parse_parts rest (keys ++ [(strip kid, expanduser E (strip path))])
           | [_] =>
               Raise (Exception (PyExc "ValueError"
                 "not enough values to unpack (expected 2, got 1)"))
           | _ =>
               Raise (Exception (PyExc "ValueError"
                 "too many values to unpack (expected 2)"))
           end
  end.

Definition parse_keyring : result (list key_entry) :=
  if nonempty SF_KEYS then parse_parts (split "," SF_KEYS) []
  else if nonempty SF_PRIVATE_KEY_PATH
       then Ok [("default", expanduser E SF_PRIVATE_KEY_PATH)]
       else Ok [].

Definition audience_from_domain (domain : string) : string :=
  if existsb (String.eqb domain) ["login"; "test"]
  then "https://" +:+ domain +:+ ".salesforce.com"
  else "https://" +:+ domain.

(** *** Token acquisition *)

(** Lines 85-89: the candidates in the order they are tried. *)
Definition attempt_order (keyring : list key_entry) (preferred_kid : pyval)
  : list key_entry :=
  if truthy preferred_kid
  then List.filter (fun pair => str_eq (fst pair) preferred_kid) keyring
       ++ List.filter (fun pair => negb (str_eq (fst pair) preferred_kid)) keyring
  else keyring.

(** [open(key_path, "rb")] and [f.read()] *)
Definition open_rb_read (key_path : string) : M (list Byte.byte) :=
  h ← history;
  effect (EvOpenRead key_path);;
  lift_sum (read_bytes E h key_path).

(** [int(time.time())] *)
Definition time_now : M Z :=
  h ← history;
  mret (clock E h).

(** [requests.post(url, data={"grant_type": ..., "assertion": assertion},
    timeout=30)] *)
Definition post (url assertion : string) : M response :=
  h ← history;
  effect (EvPost url assertion);;
  lift_sum (requests_post E h url assertion).

(** Lines 94-114: read the key, sign the assertion, post it. *)
Definition request_token (aud kid key_path : string) : M response :=
  private_key ← open_rb_read key_path;
  now ← time_now;
  let payload :=
    {| iss := SF_CLIENT_ID; sub := SF_JWT_USERNAME; aud := aud; exp := now + 180 |} in
  assertion ← lift_sum (jwt_encode E payload private_key kid);
  post (aud +:+ "/services/oauth2/token") assertion.

(** Lines 116-123: what is done with the response. *)
Definition handle_response (kid : string) (resp : response) : M iteration :=
  if resp_ok resp then
    tok ← lift_sum (resp_json resp);
    km ← read_keymap;
    km' ← lift_sum (py_setitem km TENANT_ID (VStr kid));
    assign_keymap km';;
    save_keymap km';;
    access_token ← lift_sum (py_getitem (py_repr E "access_token") tok "access_token");
    instance_url ← lift_sum (py_getitem (py_repr E "instance_url") tok "instance_url");
    mret (Returns access_token instance_url)
  else
    mret (Records (StatusError (status_code resp) (text resp))).

(** Lines 94-123, the body of the [try]. *)
Definition try_body (aud kid key_path : string) : M iteration :=
  resp ← request_token aud kid key_path;
  handle_response kid resp.

(** Lines 93-125: the [try] with its [except Exception as e]. *)
Definition attempt (aud kid key_path : string) : M iteration :=
  try_except (try_body aud kid key_path)
    (fun e => mret (Records (RaisedError (exc_type e) (exc_text e)))).

(** [str(last_err)]: [None], or a pair printed with the [repr] of its
    components. *)
Definition str_last_err (last_err : option last_error) : string :=
  match last_err with
  | None => "None"
  | Some (StatusError status body) =>
      "(" +:+ pretty status +:+ ", " +:+ py_repr E body +:+ ")"
  | Some (RaisedError name message) =>
      "(" +:+ py_repr E name +:+ ", " +:+ py_repr E message +:+ ")"
  end.

(** Line 128. *)
Definition exhausted (last_err : option last_error) : pyexc :=
  PyExc "RuntimeError"
    ("JWT exchange failed for tenant='" +:+ TENANT_ID +:+ "'. Last error: "
     +:+ str_last_err last_err).

(** Lines 91-128: the [for] loop over [ordered] and the final [raise]. *)
Fixpoint try_candidates (aud : string) (ordered : list key_entry)
  (last_err : option last_error) : M (pyval * pyval) :=
  match ordered with
  | [] => raise (Exception (exhausted last_err))
  | (kid, key_path) :: rest =>
      outcome ← attempt aud kid key_path;
      match outcome with
      | Returns access_token instance_url => mret (access_token, instance_url)
      | Records err => try_candidates aud rest (Some err)
      end
  end.

Definition lift_result {A : Type} (r : result A) : M A := fun st => (r, st).

(** Lines 77-89: the key ring, the stored hint and the attempt order. *)
Definition plan_attempts : M (list key_entry) :=
  keyring ← lift_result parse_keyring;
  when (match keyring with [] => true | _ => false end)
       (sys_exit "No keys found. Set SF_KEYS or SF_PRIVATE_KEY_PATH.");;
  km ← load_keymap;
  assign_keymap km;;
  preferred_kid ← lift_sum (py_get km TENANT_ID);
  mret (attempt_order keyring preferred_kid).

Definition get_access_token_via_jwt : M (pyval * pyval) :=
  let aud := audience_from_domain SF_DOMAIN in
  ordered ← plan_attempts;
  try_candidates aud ordered None.

(** The script up to the end of line 210: the import-time checks, then
    [main] calling [get_access_token_via_jwt]. What it returns is handed
    to the data layer. *)
Definition script : M (pyval * pyval) :=
  check_config;;
  get_access_token_via_jwt.

End Runner.

(** How the interpreter ends when the script raises: [sys.exit(msg)]
    prints [msg] and exits with status 1, an uncaught exception prints a
    traceback and exits with status 1. [None]: the script goes on. *)
Definition exit_status {A : Type} (r : result A) : option Z :=
  match r with
  | Ok _ => None
  | Raise _ => Some 1
  end.

(** ** The specification's own wording, for comparison with the code *)

Module Spec.

(** Attempt order as the specification words it: the entry the hint
    matches is moved to the front, the other entries keep their order. *)
Fixpoint remove_first (kid : string) (ring : list key_entry) : list key_entry :=
  match ring with
  | [] => []
  | entry :: rest =>
      if String.eqb (fst entry) kid then rest else entry :: remove_first kid rest
  end.

Definition move_to_front (ring : list key_entry) (hint : option string)
  : list key_entry :=
  match hint with
  | None => ring
  | Some kid =>
      match List.find (fun entry => String.eqb (fst entry) kid) ring with
      | Some entry => entry :: remove_first kid ring
      | None => ring
      end
  end.

(** An entry split at its first delimiter, both sides trimmed. *)
Definition split_entry (entry : string) : key_entry :=
  (strip (before_first ":" entry), strip (after_first ":" entry)).

(** Key-ring parsing as the specification words it: the entries that
    contain the delimiter, in their order, each split and trimmed. *)
Definition parse (specification : string) : list key_entry :=
  map split_entry
      (List.filter (contains ":") (map strip (split "," specification))).

End Spec.

(** The entries of [ring] that carry the id [kid], and the others. *)
Definition matching (kid : string) (ring : list key_entry) : list key_entry :=
  List.filter (fun entry => String.eqb (fst entry) kid) ring.

Definition others (kid : string) (ring : list key_entry) : list key_entry :=
  List.filter (fun entry => negb (String.eqb (fst entry) kid)) ring.

(** What an entry that holds the delimiter contributes to the ring. *)
Definition entry_of (E : environment) (part : string) : key_entry :=
  (strip (before_first ":" part), expanduser E (strip (after_first ":" part))).

(** ** How a candidate fares *)

(** A signing failure (the key cannot be read, [jwt.encode] raises) or an
    exchange failure (the request raises, or the response is not ok):
    attempting [c] in [st] leaves [st'] and records [err]. *)
Definition candidate_fails (E : environment) (aud : string) (c : key_entry)
  (st : state) (err : last_error) (st' : state) : Prop :=
  (∃ e, request_token E aud (fst c) (snd c) st = (Raise (Exception e), st')
        ∧ err = RaisedError (exc_type e) (exc_text e))
  ∨ (∃ resp, request_token E aud (fst c) (snd c) st = (Ok resp, st')
        ∧ resp_ok resp = false
        ∧ err = StatusError (status_code resp) (text resp)).

(** The exchange for [c] succeeds: an ok response whose body is JSON and
    holds both fields. *)
Definition candidate_succeeds (E : environment) (aud : string) (c : key_entry)
  (st : state) (access_token instance_url : pyval) (st' : state) : Prop :=
  ∃ resp tok,
    request_token E aud (fst c) (snd c) st = (Ok resp, st')
    ∧ resp_ok resp = true
    ∧ resp_json resp = inr tok
    ∧ py_getitem (py_repr E "access_token") tok "access_token" = inr access_token
    ∧ py_getitem (py_repr E "instance_url") tok "instance_url" = inr instance_url.

(** Every candidate of the list, tried one after the other from [st],
    fails; [errs] are the errors recorded, in order. *)
Inductive all_fail (E : environment) (aud : string)
  : list key_entry -> state -> list last_error -> state -> Prop :=
| all_fail_nil st : all_fail E aud [] st [] st
| all_fail_cons c rest st err st1 errs st' :
    candidate_fails E aud c st err st1 ->
    all_fail E aud rest st1 errs st' ->
    all_fail E aud (c :: rest) st (err :: errs) st'.

(** Every candidate of the list, tried one after the other from [st], ends
    its pass through the loop by recording an error. *)
Inductive all_recorded (E : environment) (aud : string)
  : list key_entry -> state -> list last_error -> state -> Prop :=
| all_recorded_nil st : all_recorded E aud [] st [] st
| all_recorded_cons c rest st err st1 errs st' :
    attempt E aud (fst c) (snd c) st = (Ok (Records err), st1) ->
    all_recorded E aud rest st1 errs st' ->
    all_recorded E aud (c :: rest) st (err :: errs) st'.

(** [last_err] after the errors [errs] were recorded on top of [last_err]. *)
Definition last_recorded (last_err : option last_error) (errs : list last_error)
  : option last_error :=
  List.last (map Some errs) last_err.

(** The directory [save_keymap] creates: [os.path.dirname(KEYMAP_PATH) or
    "."]. *)
Definition save_parent (E : environment) : string :=
  if nonempty (dirname E (KEYMAP_PATH E)) then dirname E (KEYMAP_PATH E) else ".".

(** The events of a [save_keymap(m)] in which nothing fails. *)
Definition save_events (E : environment) (m : pyval) : list event :=
  [EvMkdir (save_parent E); EvOpenWrite (KEYMAP_PATH E); EvJsonDump m].

(** None of the three steps of [save_keymap(m)] fails when it is called
    after the effects [h]. *)
Definition write_goes_through (E : environment) (m : pyval) (h : list event)
  : Prop :=
  mkdir_fault E h (save_parent E) = None
  /\ open_write_fault E (h ++ [EvMkdir (save_parent E)]) (KEYMAP_PATH E) = None
  /\ json_dump_fault E (h ++ [EvMkdir (save_parent E); EvOpenWrite (KEYMAP_PATH E)]) m
     = None.

(** The snapshot file cannot be used: it is unreadable, missing, or its
    text is not JSON. *)
Definition snapshot_unusable (E : environment) (st : state) : Prop :=
  (exists e, read_denied E (trace st) (KEYMAP_PATH E) = Some e)
  \/ snapshot st = NoFile
  \/ (exists e, snapshot st = FileText (inl e)).

(** The events [save_keymap] can log. *)
Definition is_save_event (ev : event) : bool :=
  match ev with
  | EvMkdir _ | EvOpenWrite _ | EvJsonDump _ => true
  | _ => false
  end.

Definition is_post (ev : event) : bool :=
  match ev with
  | EvPost _ _ => true
  | _ => false
  end.

(** The files opened for reading, in the order of the log. *)
Definition key_reads (evs : list event) : list string :=
  flat_map (fun ev => match ev with EvOpenRead path => [path] | _ => [] end) evs.

(** The number of requests posted. *)
Definition posts (evs : list event) : nat := length (List.filter is_post evs).

(** A value that is not a dict: it has no [get] method. *)
Definition is_dict (v : pyval) : bool :=
  match v with
  | VDict _ => true
  | _ => false
  end.

(** What a logged request must look like when it was posted for the
    candidate [c]: it goes to the token endpoint of the audience [aud], and
    its assertion is the one [jwt.encode] makes for the key id of [c] from
    the bytes read at the location of [c], with the configured issuer and
    subject, the audience [aud] and an expiry 180 seconds after the clock
    was read. Other events are not constrained. *)
Definition posted_for (E : environment) (aud : string) (c : key_entry)
  (ev : event) : Prop :=
  match ev with
  | EvPost url assertion =>
      url = aud +:+ "/services/oauth2/token"
      /\ exists (h : list event) (private_key : list Byte.byte),
           read_bytes E h (snd c) = inr private_key
           /\ jwt_encode E
                (JwtPayload (SF_CLIENT_ID E) (SF_JWT_USERNAME E) aud
                   (clock E (h ++ [EvOpenRead (snd c)]) + 180))
                private_key (fst c)
              = inr assertion
  | _ => True
  end.

(** Every character of [s] is white space. *)
Definition blank (s : string) : bool :=
  forallb py_isspace (list_ascii_of_string s).

(** An environment variable that is not set, or set to white space only. *)
Definition unset_or_blank (value : option string) : bool :=
  match value with
  | None => true
  | Some v => blank v
  end.

(** The records [json.dump] was given, in the order of the log. *)
Definition dumps (evs : list event) : list pyval :=
  flat_map (fun ev => match ev with EvJsonDump v => [v] | _ => [] end) evs.

(** ** Example surroundings *)

Module Example.

(** [s.rstrip("/")] *)
Fixpoint rstrip_slash (s : string) : string :=
  match s with
  | EmptyString => EmptyString
  | String c s' =>
      match rstrip_slash s' with
      | EmptyString => if Ascii.eqb c "/" then EmptyString else String c EmptyString
      | r => String c r
      end
  end.

(** [os.path.expanduser] on POSIX with [HOME] set to [home], for a user
    database without named users: [~] and [~/rest] are expanded, every
    other path is returned as it is. *)
Definition home_expanduser (home path : string) : string :=
  match path with
  | String "~" EmptyString =>
      if nonempty (rstrip_slash home) then rstrip_slash home else "/"
  | String "~" (String "/" _ as rest) => rstrip_slash home +:+ rest
  | _ => path
  end.

(** The text up to and including the last slash, if there is a slash. *)
Fixpoint head_of_path (p : string) : option string :=
  match p with
  | EmptyString => None
  | String c p' =>
      match head_of_path p' with
      | Some head => Some (String c head)
      | None => if Ascii.eqb c "/" then Some (String c EmptyString) else None
      end
  end.

(** [os.path.dirname] on POSIX. *)
Definition posix_dirname (p : string) : string :=
  match head_of_path p with
  | None => EmptyString
  | Some head => if nonempty (rstrip_slash head) then rstrip_slash head else head
  end.

(** [repr] of a [str] that holds no quote, backslash or control
    character. *)
Definition plain_repr (s : string) : string := "'" +:+ s +:+ "'".

Definition lookup_var (vars : list (string * string)) (name : string)
  : option string :=
  snd <$> List.find (fun binding => String.eqb (fst binding) name) vars.

Definition member (s : string) (l : list string) : bool :=
  existsb (String.eqb s) l.

Definition token_body : pyval :=
  VDict (<["instance_url" := VStr "https://acme.my.salesforce.com"]>
         (<["access_token" := VStr "00Dxx0000001gPL"]> ∅)).

Definition ok_response : response :=
  {| resp_ok := true; status_code := 200; text := "{...}";
     resp_json := inr token_body |}.

Definition invalid_grant : response :=
  {| resp_ok := false; status_code := 400; text := "invalid_grant";
     resp_json := inr (VDict (<["error" := VStr "invalid_grant"]> ∅)) |}.

Definition permission_denied : pyexc :=
  PyExc "PermissionError" "[Errno 13] Permission denied".

(** Surroundings with the environment variables [vars], home directory
    [/home/ops], the key files [key_files], an identity provider that
    accepts the assertions signed for the key ids [trusted], and writes to
    the snapshot refused with [write_fault], if any. *)
Definition surroundings (vars : list (string * string)) (key_files : list string)
  (trusted : list string) (write_fault : option pyexc) : environment :=
  {| environ := lookup_var vars;
     expanduser := home_expanduser "/home/ops";
     dirname := posix_dirname;
     py_repr := plain_repr;
     read_denied := fun _ _ => None;
     read_bytes := fun _ path =>
       if member path key_files then inr []
       else inl (PyExc "FileNotFoundError" "[Errno 2] No such file or directory");
     clock := fun _ => 1762243200;
     jwt_encode := fun _ _ kid => inr ("signed-with-" +:+ kid);
     requests_post := fun _ _ assertion =>
       if member assertion (map (String.append "signed-with-") trusted)
       then inr ok_response else inr invalid_grant;
     mkdir_fault := fun _ _ => None;
     open_write_fault := fun _ _ => write_fault;
     json_dump_fault := fun _ _ => None |}.

Definition identity : list (string * string) :=
  [("SF_CLIENT_ID", "3MVG9"); ("SF_JWT_USERNAME", "ops@acme.example")].

(** Two keys during a rotation; the provider trusts only the new one. *)
Definition rotation_vars : list (string * string) :=
  identity ++ [("SF_KEYS", "2025:/keys/2025.pem, 2030:/keys/2030.pem");
               ("TENANT_ID", "acme"); ("KEYMAP_PATH", "/var/lib/kpi/keymap.json")].

Definition rotation : environment :=
  surroundings rotation_vars ["/keys/2025.pem"; "/keys/2030.pem"] ["2030"] None.

Definition rotation_read_only : environment :=
  surroundings rotation_vars ["/keys/2025.pem"; "/keys/2030.pem"] ["2030"]
    (Some permission_denied).

(** Both keys are rejected. *)
Definition all_revoked : environment :=
  surroundings rotation_vars ["/keys/2025.pem"] [] None.

(** A key location under the home directory. *)
Definition home_keys : environment :=
  surroundings (identity ++ [("SF_KEYS", "2025:~/keys/2025.pem")]) [] [] None.

(** A specification without any delimiter, and a fallback location. *)
Definition no_delimiter : environment :=
  surroundings (identity ++ [("SF_KEYS", "/keys/2025.pem,/keys/2030.pem");
                             ("SF_PRIVATE_KEY_PATH", "/keys/2025.pem")])
    ["/keys/2025.pem"] ["default"] None.

(** No client identifier. *)
Definition no_client_id : environment :=
  surroundings [("SF_JWT_USERNAME", "ops@acme.example");
                ("SF_KEYS", "2025:/keys/2025.pem")] ["/keys/2025.pem"] ["2025"] None.

(** A state in which nothing has happened yet: no snapshot file, an empty
    log; [keymap] is not bound before the call. *)
Definition fresh : state := {| snapshot := NoFile; trace := []; keymap := VNone |}.

(** A snapshot that holds hints for the tenants [acme] and [globex]. *)
Definition stored_hints : pyval :=
  VDict (<["globex" := VStr "2025"]> (<["acme" := VStr "2025"]> ∅)).

Definition with_hints : state :=
  {| snapshot := FileText (inr stored_hints); trace := []; keymap := VNone |}.

(** A ring in which two entries carry the id [2025]. *)
Definition ring_with_duplicate : list key_entry :=
  [("2024", "/keys/a.pem"); ("2025", "/keys/b.pem");
   ("2030", "/keys/c.pem"); ("2025", "/keys/d.pem")].

Definition key_2025 : key_entry := ("2025", "/keys/2025.pem").
Definition key_2030 : key_entry := ("2030", "/keys/2030.pem").

Definition login_url : string :=
  "https://login.salesforce.com/services/oauth2/token".

(** [with_hints] once the attempts are planned: the snapshot was read and
    [keymap] is bound to its record. *)
Definition planned : state :=
  set_keymap stored_hints (log (EvOpenRead "/var/lib/kpi/keymap.json") with_hints).

(** After the key of [c] was read and the assertion signed with it was
    posted. *)
Definition exchanged (c : key_entry) (st : state) : state :=
  log (EvPost login_url ("signed-with-" +:+ fst c)) (log (EvOpenRead (snd c)) st).

Definition file_not_found : last_error :=
  RaisedError "FileNotFoundError" "[Errno 2] No such file or directory".

(** [E] with an identity provider that answers every request with
    [resp]. *)
Definition answering (resp : response) (E : environment) : environment :=
  {| environ := environ E;
     expanduser := expanduser E;
     dirname := dirname E;
     py_repr := py_repr E;
     read_denied := read_denied E;
     read_bytes := read_bytes E;
     clock := clock E;
     jwt_encode := jwt_encode E;
     requests_post := fun _ _ _ => inr resp;
     mkdir_fault := mkdir_fault E;
     open_write_fault := open_write_fault E;
     json_dump_fault := json_dump_fault E |}.

(** An ok response whose body holds the host but no token. *)
Definition no_token_body : response :=
  {| resp_ok := true; status_code := 200; text := "{...}";
     resp_json :=
       inr (VDict (<["instance_url" := VStr "https://acme.my.salesforce.com"]> ∅)) |}.

(** A snapshot whose text is the JSON array [[]]. *)
Definition with_array : state :=
  {| snapshot := FileText (inr (VList [])); trace := []; keymap := VNone |}.

(** The client identifier is set, to three spaces. *)
Definition blank_client_id : environment :=
  surroundings [("SF_CLIENT_ID", "   "); ("SF_JWT_USERNAME", "ops@acme.example");
                ("SF_KEYS", "2025:/keys/2025.pem")] ["/keys/2025.pem"] ["2025"] None.

(** The double quote, as a string. *)
Definition dq : string := String (ascii_of_nat 34) EmptyString.

(** Every single quote of [s] with a backslash before it. *)
Fixpoint escape_quotes (s : string) : string :=
  match s with
  | EmptyString => EmptyString
  | String c s' =>
      if Ascii.eqb c "'" then String "\" (String c (escape_quotes s'))
      else String c (escape_quotes s')
  end.

(** [repr] of a [str] of printable ASCII characters without backslash:
    between double quotes when it holds a single quote and no double
    quote, between single quotes otherwise. *)
Definition quoting_repr (s : string) : string :=
  if contains "'" s && negb (contains (ascii_of_nat 34) s)
  then dq +:+ s +:+ dq
  else "'" +:+ escape_quotes s +:+ "'".

(** [E] with an identity provider whose answer depends on the assertion
    only, and with [quoting_repr] for [repr]. *)
Definition replying (reply : string -> response) (E : environment) : environment :=
  {| environ := environ E;
     expanduser := expanduser E;
     dirname := dirname E;
     py_repr := quoting_repr;
     read_denied := read_denied E;
     read_bytes := read_bytes E;
     clock := clock E;
     jwt_encode := jwt_encode E;
     requests_post := fun _ _ assertion => inr (reply assertion);
     mkdir_fault := mkdir_fault E;
     open_write_fault := open_write_fault E;
     json_dump_fault := json_dump_fault E |}.

(** The rotation, with a provider that answers every request with status
    200 and a JSON object without [access_token]. *)
Definition incomplete_replies : environment :=
  replying (fun _ => no_token_body) rotation.

(** The rotation, with a provider that answers the assertion of the 2025
    key with status 200 and a JSON object without [access_token], and the
    assertion of the 2030 key with the token. *)
Definition first_reply_incomplete : environment :=
  replying (fun assertion =>
              if String.eqb assertion "signed-with-2030" then ok_response
              else no_token_body)
           rotation.

(** A snapshot that holds a hint for the tenant [globex] only. *)
Definition with_globex : state :=
  {| snapshot := FileText (inr (VDict (<["globex" := VStr "2025"]> ∅)));
     trace := []; keymap := VNone |}.

Definition ring_abc : list key_entry :=
  [("A", "/keys/a.pem"); ("B", "/keys/b.pem"); ("C", "/keys/c.pem")].

End Example.

(** * Properties *)

(** ** Strings *)

Section StringFacts.

Lemma split_max_zero (sep : ascii) (s : string) : split_max sep 0 s = [s].
Proof. destruct s; reflexivity. Qed.

Lemma split_max_first (sep : ascii) (s : string) :
  contains sep s = true ->
  split_max sep 1 s = [before_first sep s; after_first sep s].
Proof.
  induction s as [|c s IH]; simpl; [discriminate|].
  destruct (Ascii.eqb c sep); simpl.
  - intros _. now rewrite split_max_zero.
  - intros H. now rewrite (IH H).
Qed.

Lemma contains_nonempty (sep : ascii) (s : string) :
  contains sep s = true -> nonempty s = true.
Proof. destruct s; [discriminate | reflexivity]. Qed.

Lemma contains_lstrip (sep : ascii) (s : string) :
  py_isspace sep = false -> contains sep (lstrip s) = contains sep s.
Proof.
  intros Hsep. induction s as [|c s IH]; simpl; [reflexivity|].
  destruct (py_isspace c) eqn:Hc; [|reflexivity].
  rewrite IH. destruct (Ascii.eqb_spec c sep) as [->|_]; [congruence | reflexivity].
Qed.

Lemma rstrip_empty_contains (sep : ascii) (s : string) :
  py_isspace sep = false -> rstrip s = EmptyString -> contains sep s = false.
Proof.
  intros Hsep. induction s as [|c s IH]; simpl; [reflexivity|].
  destruct (rstrip s) eqn:Hr; [|discriminate].
  destruct (py_isspace c) eqn:Hc; [|discriminate].
  intros _. rewrite IH by reflexivity.
  destruct (Ascii.eqb_spec c sep) as [->|_]; [congruence | reflexivity].
Qed.

Lemma contains_rstrip (sep : ascii) (s : string) :
  py_isspace sep = false -> contains sep (rstrip s) = contains sep s.
Proof.
  intros Hsep. induction s as [|c s IH]; simpl; [reflexivity|].
  destruct (rstrip s) eqn:Hr.
  - rewrite (rstrip_empty_contains sep s Hsep Hr).
    destruct (py_isspace c) eqn:Hc; simpl.
    + destruct (Ascii.eqb_spec c sep) as [->|_]; [congruence | reflexivity].
    + reflexivity.
  - simpl. simpl in IH. now rewrite IH.
Qed.

Lemma contains_strip (sep : ascii) (s : string) :
  py_isspace sep = false -> contains sep (strip s) = contains sep s.
Proof.
  intros Hsep. unfold strip.
  now rewrite contains_rstrip, contains_lstrip.
Qed.

End StringFacts.

(** ** Audience *)

(** C7. The audience derived from the identity-provider domain [d] is
    [https://login.salesforce.com] for [login],
    [https://test.salesforce.com] for [test], and [https://] followed by
    [d], unchanged, for every other [d]. *)
Theorem audience_mapping (d : string) :
  (d = "login" -> audience_from_domain d = "https://login.salesforce.com")
  /\ (d = "test" -> audience_from_domain d = "https://test.salesforce.com")
  /\ (d <> "login" -> d <> "test" -> audience_from_domain d = "https://" +:+ d).
Proof.
  repeat split.
  - intros ->. reflexivity.
  - intros ->. reflexivity.
  - intros Hl Ht. unfold audience_from_domain. simpl.
    destruct (String.eqb_spec d "login") as [?|_]; [contradiction|].
    destruct (String.eqb_spec d "test") as [?|_]; [contradiction|].
    reflexivity.
Qed.

Lemma audience_mapping_witness :
  audience_from_domain "acme.my.salesforce.com" = "https://acme.my.salesforce.com"
  /\ audience_from_domain "test" = "https://test.salesforce.com".
Proof.
  split.
  - apply (audience_mapping "acme.my.salesforce.com"); discriminate.
  - apply (audience_mapping "test"). reflexivity.
Defined.

(** ** Key-ring parsing *)

Section Parsing.

Context (E : environment).

Lemma parse_parts_entries (parts : list string) (keys : list key_entry) :
  parse_parts E parts keys
  = Ok (keys ++ map (entry_of E) (List.filter (contains ":") (map strip parts)))%list.
Proof.
  revert keys. induction parts as [|part parts IH]; intros keys; simpl.
  - now rewrite app_nil_r.
  - destruct (contains ":" (strip part)) eqn:Hc; simpl.
    + rewrite (contains_nonempty _ _ Hc). simpl.
      rewrite (split_max_first _ _ Hc), IH, <- app_assoc. reflexivity.
    + destruct (nonempty (strip part)); simpl; apply IH.
Qed.

Lemma parse_parts_never_raises (parts : list string) (keys : list key_entry) :
  exists ring, parse_parts E parts keys = Ok ring.
Proof. eexists. apply parse_parts_entries. Qed.

Lemma filter_no_delimiter (parts : list string) :
  Forall (fun part => contains ":" part = false) parts ->
  List.filter (contains ":") (map strip parts) = [].
Proof.
  induction 1 as [|part parts Hpart _ IH]; simpl; [reflexivity|].
  rewrite contains_strip by reflexivity. now rewrite Hpart.
Qed.

End Parsing.

(** C8 (as amended). For every non-empty specification, [parse_keyring]
    does not raise and yields exactly the entries that hold the delimiter,
    in their order, each split at its first delimiter with both sides
    trimmed, the location moreover passed through [os.path.expanduser];
    entries without the delimiter, empty ones included, are skipped. *)
Theorem parse_keyring_tolerant (E : environment) :
  nonempty (SF_KEYS E) = true ->
  parse_keyring E
  = Ok (map (fun entry => (fst entry, expanduser E (snd entry)))
            (Spec.parse (SF_KEYS E))).
Proof.
  intros Hspec. unfold parse_keyring. rewrite Hspec.
  rewrite parse_parts_entries. simpl. unfold Spec.parse.
  rewrite map_map. reflexivity.
Qed.

Lemma parse_keyring_tolerant_witness :
  parse_keyring Example.rotation
  = Ok [("2025", "/keys/2025.pem"); ("2030", "/keys/2030.pem")].
Proof.
  rewrite (parse_keyring_tolerant Example.rotation); reflexivity.
Defined.

(** C8 (as stated) fails: the location [~/keys/2025.pem] is not kept as the
    trimmed text after the delimiter, it comes out expanded. *)
Lemma parse_keyring_expands_home :
  parse_keyring Example.home_keys = Ok [("2025", "/home/ops/keys/2025.pem")]
  /\ Spec.parse (SF_KEYS Example.home_keys) = [("2025", "~/keys/2025.pem")]
  /\ parse_keyring Example.home_keys <> Ok (Spec.parse (SF_KEYS Example.home_keys)).
Proof.
  split; [reflexivity|]. split; [reflexivity|]. discriminate.
Qed.

(** ** Fatal configuration errors *)

Ltac run_monad :=
  unfold when, sys_exit, lift_result, lift_sum, fail_if in *;
  unfold raise, mbind, M_bind, mret, M_ret in *.

Lemma empty_ring_aborts (E : environment) (st : state) :
  parse_keyring E = Ok [] ->
  get_access_token_via_jwt E st
  = (Raise (SystemExit "No keys found. Set SF_KEYS or SF_PRIVATE_KEY_PATH."), st).
Proof.
  intros Hring. unfold get_access_token_via_jwt, plan_attempts. run_monad.
  now rewrite Hring.
Qed.

Lemma check_config_passes (E : environment) (st : state) :
  nonempty (SF_CLIENT_ID E) = true ->
  nonempty (SF_JWT_USERNAME E) = true ->
  (nonempty (SF_KEYS E) = true \/ nonempty (SF_PRIVATE_KEY_PATH E) = true) ->
  check_config E st = (Ok tt, st).
Proof.
  intros Hc Hu Hk. unfold check_config. run_monad. rewrite Hc, Hu. simpl.
  destruct Hk as [-> | ->]; [reflexivity|].
  now destruct (nonempty (SF_KEYS E)).
Qed.

(** C10. The fallback location is consulted only when the specification is
    the empty string: then the ring is the fallback entry (or empty without
    one); a non-empty specification is parsed without regard to the
    fallback; and when none of its entries holds the delimiter the ring is
    empty and the acquisition ends in the empty-ring [sys.exit], whatever
    the fallback location. *)
Theorem fallback_only_for_empty_specification (E : environment) :
  (nonempty (SF_KEYS E) = false ->
     parse_keyring E
     = Ok (if nonempty (SF_PRIVATE_KEY_PATH E)
           then [("default", expanduser E (SF_PRIVATE_KEY_PATH E))] else []))
  /\ (nonempty (SF_KEYS E) = true ->
      forall E' : environment,
        SF_KEYS E' = SF_KEYS E -> expanduser E' = expanduser E ->
        parse_keyring E' = parse_keyring E)
  /\ (nonempty (SF_KEYS E) = true ->
      Forall (fun part => contains ":" part = false) (split "," (SF_KEYS E)) ->
      parse_keyring E = Ok []
      /\ forall st : state,
           get_access_token_via_jwt E st
           = (Raise (SystemExit "No keys found. Set SF_KEYS or SF_PRIVATE_KEY_PATH."),
              st)).
Proof.
  split; [|split].
  - intros Hspec. unfold parse_keyring. rewrite Hspec.
    now destruct (nonempty (SF_PRIVATE_KEY_PATH E)).
  - intros Hspec E' Hkeys Hexp. unfold parse_keyring.
    rewrite Hkeys, Hspec, !parse_parts_entries. unfold entry_of.
    now rewrite Hexp.
  - intros Hspec Hparts.
    assert (Hring : parse_keyring E = Ok []).
    { unfold parse_keyring. rewrite Hspec, parse_parts_entries.
      now rewrite (filter_no_delimiter _ Hparts). }
    split; [exact Hring|]. intros st. now apply empty_ring_aborts.
Qed.

Lemma fallback_only_for_empty_specification_witness :
  nonempty (SF_PRIVATE_KEY_PATH Example.no_delimiter) = true
  /\ parse_keyring Example.no_delimiter = Ok []
  /\ get_access_token_via_jwt Example.no_delimiter Example.fresh
     = (Raise (SystemExit "No keys found. Set SF_KEYS or SF_PRIVATE_KEY_PATH."),
        Example.fresh).
Proof.
  assert (Hspec : nonempty (SF_KEYS Example.no_delimiter) = true) by reflexivity.
  assert (Hparts : Forall (fun part => contains ":" part = false)
                          (split "," (SF_KEYS Example.no_delimiter))).
  { vm_compute. repeat constructor. }
  destruct (proj2 (proj2 (fallback_only_for_empty_specification Example.no_delimiter))
              Hspec Hparts) as [Hring Habort].
  split; [reflexivity|]. split; [exact Hring | exact (Habort Example.fresh)].
Defined.

(** C4. When the client identifier or the acting-subject identifier is
    missing, or the parsed key ring is empty, the script ends in a
    [sys.exit] with one of the three configuration messages, hence with
    exit status 1, in the very state it started from: nothing was logged, so
    no request was posted. With both identifiers present the message is one
    of the two about keys: an empty ring never reaches the loop over
    candidates and its [RuntimeError]. *)
Theorem fatal_configuration_before_network (E : environment) (st : state) :
  nonempty (SF_CLIENT_ID E) = false \/ nonempty (SF_JWT_USERNAME E) = false
  \/ parse_keyring E = Ok [] ->
  exists msg : string,
    script E st = (Raise (SystemExit msg), st)
    /\ exit_status (fst (script E st)) = Some 1
    /\ List.filter is_post (trace (snd (script E st))) = List.filter is_post (trace st)
    /\ In msg ["Missing SF_CLIENT_ID or SF_JWT_USERNAME";
               "Provide either SF_KEYS (key_id:path,...) or SF_PRIVATE_KEY_PATH";
               "No keys found. Set SF_KEYS or SF_PRIVATE_KEY_PATH."]
    /\ (nonempty (SF_CLIENT_ID E) = true -> nonempty (SF_JWT_USERNAME E) = true ->
        msg <> "Missing SF_CLIENT_ID or SF_JWT_USERNAME").
Proof.
  intros Hbad.
  assert (Hscript : exists msg : string,
    script E st = (Raise (SystemExit msg), st)
    /\ In msg ["Missing SF_CLIENT_ID or SF_JWT_USERNAME";
               "Provide either SF_KEYS (key_id:path,...) or SF_PRIVATE_KEY_PATH";
               "No keys found. Set SF_KEYS or SF_PRIVATE_KEY_PATH."]
    /\ (nonempty (SF_CLIENT_ID E) = true -> nonempty (SF_JWT_USERNAME E) = true ->
        msg <> "Missing SF_CLIENT_ID or SF_JWT_USERNAME")).
  { destruct (nonempty (SF_CLIENT_ID E)) eqn:Hc;
      [destruct (nonempty (SF_JWT_USERNAME E)) eqn:Hu|].
    - destruct Hbad as [Hbad | [Hbad | Hring]]; try discriminate.
      destruct (nonempty (SF_KEYS E)) eqn:Hk;
        [|destruct (nonempty (SF_PRIVATE_KEY_PATH E)) eqn:Hp].
      + exists "No keys found. Set SF_KEYS or SF_PRIVATE_KEY_PATH.".
        split; [|split; [simpl; tauto | discriminate]].
        unfold script. unfold mbind at 1. unfold M_bind.
        rewrite check_config_passes by auto. now apply empty_ring_aborts.
      + exfalso. unfold parse_keyring in Hring. rewrite Hk, Hp in Hring.
        discriminate.
      + exists "Provide either SF_KEYS (key_id:path,...) or SF_PRIVATE_KEY_PATH".
        split; [|split; [simpl; tauto | discriminate]].
        unfold script, check_config. run_monad. now rewrite Hc, Hu, Hk, Hp.
    - exists "Missing SF_CLIENT_ID or SF_JWT_USERNAME".
      split; [|split; [simpl; tauto | discriminate]].
      unfold script, check_config. run_monad. now rewrite Hc, Hu.
    - exists "Missing SF_CLIENT_ID or SF_JWT_USERNAME".
      split; [|split; [simpl; tauto | discriminate]].
      unfold script, check_config. run_monad. now rewrite Hc. }
  destruct Hscript as (msg & Hrun & Hmsg & Hkeys).
  exists msg. rewrite Hrun. simpl. auto.
Qed.

Lemma fatal_configuration_before_network_witness :
  nonempty (SF_CLIENT_ID Example.no_client_id) = false
  /\ exists msg : string,
       script Example.no_client_id Example.fresh
       = (Raise (SystemExit msg), Example.fresh).
Proof.
  split; [reflexivity|].
  destruct (fatal_configuration_before_network Example.no_client_id Example.fresh)
    as (msg & Hrun & _).
  - left. reflexivity.
  - exists msg. exact Hrun.
Defined.

(** ** The preference store *)

Section Store.

Context (E : environment).

Lemma load_keymap_unusable (st : state) :
  snapshot_unusable E st ->
  load_keymap E st = (Ok (VDict ∅), log (EvOpenRead (KEYMAP_PATH E)) st).
Proof.
  intros Hbad. unfold load_keymap, try_except, open_keymap_r, history, effect,
    read_snapshot. run_monad.
  destruct Hbad as [[e He] | [Hno | [e He]]].
  - rewrite He. reflexivity.
  - destruct (read_denied E (trace st) (KEYMAP_PATH E)); [reflexivity|].
    simpl. rewrite Hno. reflexivity.
  - destruct (read_denied E (trace st) (KEYMAP_PATH E)); [reflexivity|].
    simpl. rewrite He. reflexivity.
Qed.

Lemma load_keymap_holds (st : state) (v : pyval) :
  read_denied E (trace st) (KEYMAP_PATH E) = None ->
  snapshot st = FileText (inr v) ->
  load_keymap E st = (Ok v, log (EvOpenRead (KEYMAP_PATH E)) st).
Proof.
  intros Hread Hfile. unfold load_keymap, try_except, open_keymap_r, history,
    effect, read_snapshot. run_monad.
  rewrite Hread. simpl. rewrite Hfile. reflexivity.
Qed.

(** [load_keymap] returns in every state, and only logs the read. *)
Lemma load_keymap_returns (st : state) :
  exists v, load_keymap E st = (Ok v, log (EvOpenRead (KEYMAP_PATH E)) st).
Proof.
  destruct (read_denied E (trace st) (KEYMAP_PATH E)) as [e|] eqn:Hread.
  - exists (VDict ∅). apply load_keymap_unusable. left. eauto.
  - destruct (snapshot st) as [|[e|v]] eqn:Hfile.
    + exists (VDict ∅). apply load_keymap_unusable. right. left. exact Hfile.
    + exists (VDict ∅). apply load_keymap_unusable. right. right. eauto.
    + exists v. now apply load_keymap_holds.
Qed.

(** [save_keymap] returns whatever fails, leaves [keymap] alone, and logs
    the creation of the parent directory followed by write events only. *)
Lemma save_keymap_returns (m : pyval) (st : state) :
  exists st' evs,
    save_keymap E m st = (Ok tt, st')
    /\ keymap st' = keymap st
    /\ trace st' = (trace st ++ EvMkdir (save_parent E) :: evs)%list
    /\ Forall (fun ev => is_save_event ev = true) evs.
Proof.
  unfold save_keymap, try_except, mkdir, open_keymap_w, json_dump, history,
    effect, write_snapshot. run_monad. fold (save_parent E). simpl.
  destruct (mkdir_fault E (trace st) (save_parent E)); simpl.
  { eexists _, []. split; [reflexivity|]. simpl. auto. }
  destruct (open_write_fault E _ (KEYMAP_PATH E)); simpl.
  { eexists _, [_]. split; [reflexivity|]. simpl.
    rewrite <- app_assoc. simpl. auto. }
  destruct (json_dump_fault E _ m); simpl.
  - eexists _, [_; _]. split; [reflexivity|]. simpl.
    rewrite <- !app_assoc. simpl. auto.
  - eexists _, [_; _]. split; [reflexivity|]. simpl.
    rewrite <- !app_assoc. simpl. auto.
Qed.

Lemma save_keymap_written (m : pyval) (st : state) :
  write_goes_through E m (trace st) ->
  save_keymap E m st
  = (Ok tt, {| snapshot := FileText (inr m);
               trace := (trace st ++ save_events E m)%list;
               keymap := keymap st |}).
Proof.
  intros (Hmk & Hop & Hdump).
  unfold save_keymap, try_except, mkdir, open_keymap_w, json_dump, history,
    effect, write_snapshot. run_monad. fold (save_parent E). simpl.
  rewrite Hmk. simpl. rewrite Hop. simpl.
  rewrite <- app_assoc. simpl. rewrite Hdump. simpl.
  unfold set_snapshot, log, save_events. simpl.
  now rewrite <- !app_assoc.
Qed.

(** A write refused when the file is opened leaves the snapshot as it was. *)
Lemma save_keymap_refused (m : pyval) (st : state) (e : pyexc) :
  mkdir_fault E (trace st) (save_parent E) = None ->
  open_write_fault E (trace st ++ [EvMkdir (save_parent E)]) (KEYMAP_PATH E) = Some e ->
  snapshot (snd (save_keymap E m st)) = snapshot st.
Proof.
  intros Hmk Hop.
  unfold save_keymap, try_except, mkdir, open_keymap_w, json_dump, history,
    effect, write_snapshot. run_monad. fold (save_parent E). simpl.
  rewrite Hmk. simpl. rewrite Hop. reflexivity.
Qed.

End Store.

(** ** One candidate *)

Section Candidate.

Context (E : environment) (aud : string).

Lemma request_token_steps (kid key_path : string) (st : state) :
  request_token E aud kid key_path st
  = let st1 := log (EvOpenRead key_path) st in
    match read_bytes E (trace st) key_path with
    | inl e => (Raise (Exception e), st1)
    | inr private_key =>
        let payload := JwtPayload (SF_CLIENT_ID E) (SF_JWT_USERNAME E) aud
                                  (clock E (trace st1) + 180) in
        match jwt_encode E payload private_key kid with
        | inl e => (Raise (Exception e), st1)
        | inr assertion =>
            let url := aud +:+ "/services/oauth2/token" in
            let st2 := log (EvPost url assertion) st1 in
            match requests_post E (trace st1) url assertion with
            | inl e => (Raise (Exception e), st2)
            | inr resp => (Ok resp, st2)
            end
        end
    end.
Proof.
  unfold request_token, open_rb_read, time_now, post, history, effect.
  run_monad. simpl.
  destruct (read_bytes E (trace st) key_path); [reflexivity|]. simpl.
  destruct (jwt_encode E _ _ kid); [reflexivity|]. simpl.
  destruct (requests_post E _ _ _); reflexivity.
Qed.

(** Requesting a token touches neither the snapshot nor [keymap], logs the
    reading of the key first and no write, and raises nothing but
    exceptions. *)
Lemma request_token_frame (kid key_path : string) (st : state)
  (r : result response) (st' : state) :
  request_token E aud kid key_path st = (r, st') ->
  snapshot st' = snapshot st
  /\ keymap st' = keymap st
  /\ (exists evs, trace st' = (trace st ++ EvOpenRead key_path :: evs)%list
                  /\ Forall (fun ev => is_save_event ev = false) evs)
  /\ (forall msg, r <> Raise (SystemExit msg)).
Proof.
  rewrite request_token_steps. simpl.
  destruct (read_bytes E (trace st) key_path).
  { intros [= <- <-]. repeat split; [|discriminate]. exists []. auto. }
  destruct (jwt_encode E _ _ kid).
  { intros [= <- <-]. repeat split; [|discriminate]. exists []. auto. }
  destruct (requests_post E _ _ _); intros [= <- <-];
    (repeat split; [|discriminate]); eexists [_]; simpl;
    rewrite <- app_assoc; simpl; auto.
Qed.

Lemma handle_response_rejected (kid : string) (resp : response) (st : state) :
  resp_ok resp = false ->
  handle_response E kid resp st
  = (Ok (Records (StatusError (status_code resp) (text resp))), st).
Proof. intros Hok. unfold handle_response. now rewrite Hok. Qed.

Lemma handle_response_undecodable (kid : string) (resp : response) (st : state)
  (e : pyexc) :
  resp_ok resp = true -> resp_json resp = inl e ->
  handle_response E kid resp st = (Raise (Exception e), st).
Proof.
  intros Hok Hjson. unfold handle_response. run_monad. now rewrite Hok, Hjson.
Qed.

(** An ok response with a JSON body: the record is updated and saved
    before the two fields are looked up. *)
Lemma handle_response_accepted (kid : string) (resp : response) (st : state)
  (tok : pyval) (m : gmap string pyval) :
  resp_ok resp = true -> resp_json resp = inr tok -> keymap st = VDict m ->
  let record := VDict (<[TENANT_ID E := VStr kid]> m) in
  let st' := snd (save_keymap E record (set_keymap record st)) in
  handle_response E kid resp st
  = match py_getitem (py_repr E "access_token") tok "access_token" with
    | inl e => (Raise (Exception e), st')
    | inr access_token =>
        match py_getitem (py_repr E "instance_url") tok "instance_url" with
        | inl e => (Raise (Exception e), st')
        | inr instance_url => (Ok (Returns access_token instance_url), st')
        end
    end.
Proof.
  intros Hok Hjson Hkm. simpl.
  unfold handle_response, read_keymap, assign_keymap. run_monad.
  rewrite Hok, Hjson. cbn. rewrite Hkm. cbn.
  destruct (save_keymap_returns E (VDict (<[TENANT_ID E := VStr kid]> m))
              (set_keymap (VDict (<[TENANT_ID E := VStr kid]> m)) st))
    as (st' & evs & -> & _). simpl.
  destruct (py_getitem _ tok "access_token"); [reflexivity|].
  destruct (py_getitem _ tok "instance_url"); reflexivity.
Qed.

(** A candidate that fails to sign or to exchange is recorded, and the
    store is not touched. *)
Lemma attempt_fails (c : key_entry) (st : state) (err : last_error) (st' : state) :
  candidate_fails E aud c st err st' ->
  attempt E aud (fst c) (snd c) st = (Ok (Records err), st')
  /\ snapshot st' = snapshot st /\ keymap st' = keymap st.
Proof.
  intros [(e & Hreq & ->) | (resp & Hreq & Hok & ->)];
    destruct (request_token_frame _ _ _ _ _ Hreq) as (Hsnap & Hkm & _);
    (split; [|now split]);
    unfold attempt, try_except, try_body; run_monad; rewrite Hreq.
  - reflexivity.
  - now rewrite handle_response_rejected.
Qed.

(** A candidate whose exchange succeeds makes the loop body return, after
    the record was updated and handed to [save_keymap]. *)
Lemma attempt_succeeds (c : key_entry) (st : state) (a h : pyval) (st' : state)
  (m : gmap string pyval) :
  candidate_succeeds E aud c st a h st' -> keymap st = VDict m ->
  let record := VDict (<[TENANT_ID E := VStr (fst c)]> m) in
  attempt E aud (fst c) (snd c) st
  = (Ok (Returns a h), snd (save_keymap E record (set_keymap record st'))).
Proof.
  intros (resp & tok & Hreq & Hok & Hjson & Ha & Hh) Hkm. simpl.
  destruct (request_token_frame _ _ _ _ _ Hreq) as (_ & Hkm' & _).
  unfold attempt, try_except, try_body. run_monad. rewrite Hreq.
  rewrite (handle_response_accepted _ _ _ tok m Hok Hjson) by congruence.
  now rewrite Ha, Hh.
Qed.

(** Whatever happens, one pass through the loop body returns or records
    an error; [keymap] stays the dict it was or gets the candidate's id for
    the tenant; when the pass returns, the record was updated and handed to
    [save_keymap] right before. *)
Lemma attempt_outcome (kid key_path : string) (st : state)
  (m : gmap string pyval) :
  keymap st = VDict m ->
  let record := VDict (<[TENANT_ID E := VStr kid]> m) in
  exists outcome st',
    attempt E aud kid key_path st = (Ok outcome, st')
    /\ match outcome with
       | Returns a h =>
           exists st1, candidate_succeeds E aud (kid, key_path) st a h st1
                       /\ st' = snd (save_keymap E record (set_keymap record st1))
                       /\ keymap st' = record
       | Records _ => keymap st' = VDict m \/ keymap st' = record
       end.
Proof.
  intros Hkm. simpl. unfold attempt, try_except, try_body. run_monad.
  destruct (request_token E aud kid key_path st) as [[resp|r] st1] eqn:Hreq.
  2:{ destruct (request_token_frame _ _ _ _ _ Hreq) as (_ & Hkm1 & _ & Hexc).
      destruct r as [e|msg]; [|now destruct (Hexc msg)].
      eexists _, _. split; [reflexivity|]. left. congruence. }
  destruct (request_token_frame _ _ _ _ _ Hreq) as (_ & Hkm1 & _).
  destruct (resp_ok resp) eqn:Hok.
  2:{ rewrite handle_response_rejected by exact Hok.
      eexists _, _. split; [reflexivity|]. left. congruence. }
  destruct (resp_json resp) as [e|tok] eqn:Hjson.
  { rewrite (handle_response_undecodable _ _ _ e Hok Hjson).
    eexists _, _. split; [reflexivity|]. left. congruence. }
  rewrite (handle_response_accepted _ _ _ tok m Hok Hjson) by congruence.
  destruct (save_keymap_returns E (VDict (<[TENANT_ID E := VStr kid]> m))
              (set_keymap (VDict (<[TENANT_ID E := VStr kid]> m)) st1))
    as (st2 & evs & Hsave & Hkm2 & _).
  rewrite Hsave. simpl.
  destruct (py_getitem _ tok "access_token") as [e|a] eqn:Ha.
  { eexists _, _. split; [reflexivity|]. right. exact Hkm2. }
  destruct (py_getitem _ tok "instance_url") as [e|h] eqn:Hh.
  { eexists _, _. split; [reflexivity|]. right. exact Hkm2. }
  eexists _, _. split; [reflexivity|]. exists st1. split.
  - exists resp, tok. auto.
  - rewrite Hsave. auto.
Qed.

End Candidate.

(** ** Attempt order *)

Section Order.

Lemma filter_none {A : Type} (f : A -> bool) (l : list A) :
  (forall x, In x l -> f x = false) -> List.filter f l = [].
Proof.
  induction l as [|x l IH]; simpl; intros H; [reflexivity|].
  rewrite (H x) by auto. apply IH. auto.
Qed.

Lemma filter_all {A : Type} (f : A -> bool) (l : list A) :
  (forall x, In x l -> f x = false) -> List.filter (fun x => negb (f x)) l = l.
Proof.
  induction l as [|x l IH]; simpl; intros H; [reflexivity|].
  rewrite (H x) by auto. simpl. f_equal. apply IH. auto.
Qed.

Lemma filter_empty_In {A : Type} (f : A -> bool) (l : list A) :
  List.filter f l = [] -> forall x, In x l -> f x = false.
Proof.
  intros Hnil x Hx. destruct (f x) eqn:Hf; [|reflexivity].
  assert (Hin : In x (List.filter f l)) by (apply filter_In; auto).
  rewrite Hnil in Hin. destruct Hin.
Qed.

(** With at most one match, the stable partition is the move to the
    front of the specification. *)
Lemma partition_move_to_front (kid : string) (ring : list key_entry) :
  (length (matching kid ring) <= 1)%nat ->
  (matching kid ring ++ others kid ring)%list = Spec.move_to_front ring (Some kid).
Proof.
  unfold matching, others, Spec.move_to_front.
  induction ring as [|entry ring IH]; simpl; [reflexivity|].
  destruct (String.eqb (fst entry) kid) eqn:Hentry; simpl; intros Hlen.
  - assert (Hnil : List.filter (fun e => String.eqb (fst e) kid) ring = []).
    { destruct (List.filter (fun e => String.eqb (fst e) kid) ring);
        [reflexivity | simpl in Hlen; lia]. }
    rewrite Hnil. simpl. f_equal.
    apply (filter_all (fun e => String.eqb (fst e) kid)).
    now apply filter_empty_In.
  - specialize (IH Hlen).
    destruct (find (fun e => String.eqb (fst e) kid) ring) as [c|] eqn:Hfind.
    + destruct (List.filter (fun e => String.eqb (fst e) kid) ring)
        as [|c' [|c'' l]] eqn:Hmatch.
      * apply find_some in Hfind. destruct Hfind as [Hin Hc].
        now rewrite (filter_empty_In _ _ Hmatch c Hin) in Hc.
      * simpl in IH. injection IH as -> ->. reflexivity.
      * simpl in Hlen. lia.
    + assert (Hnone := find_none _ _ Hfind).
      match goal with
      | |- (?l ++ _)%list = _ =>
          assert (Hnil : l = []) by (apply filter_none; exact Hnone);
          rewrite Hnil in IH |- *
      end.
      simpl in *. f_equal. exact IH.
Qed.

Lemma attempt_order_string (ring : list key_entry) (kid : string) :
  nonempty kid = true ->
  attempt_order ring (VStr kid) = (matching kid ring ++ others kid ring)%list.
Proof. intros Hkid. unfold attempt_order. simpl. now rewrite Hkid. Qed.

Lemma attempt_order_no_match (ring : list key_entry) (stored : pyval) :
  (forall entry, In entry ring -> str_eq (fst entry) stored = false) ->
  attempt_order ring stored = ring.
Proof.
  intros Hnone. unfold attempt_order. destruct (truthy stored); [|reflexivity].
  match goal with
  | |- (?l ++ ?r)%list = _ =>
      assert (Hl : l = []) by (apply filter_none; exact Hnone);
      assert (Hr : r = ring)
        by (apply (filter_all (fun entry => str_eq (fst entry) stored));
            exact Hnone);
      now rewrite Hl, Hr
  end.
Qed.

Lemma attempt_order_In (ring : list key_entry) (stored : pyval) (c : key_entry) :
  In c (attempt_order ring stored) <-> In c ring.
Proof.
  unfold attempt_order. destruct (truthy stored); [|reflexivity].
  rewrite in_app_iff, !filter_In.
  destruct (str_eq (fst c) stored); simpl; intuition congruence.
Qed.

(** C1 (as amended). A stored hint that is a non-empty string moves the
    entries carrying that id to the front, in their order, and leaves the
    other entries in their order; when at most one entry carries the id
    this is the move to the front of the specification, for instance
    B, A, C for the ring A, B, C and the hint B. Without a hint, with a
    hint that is not a non-empty string, or with a hint no entry carries,
    the attempt order is the ring as it stands. *)
Theorem attempt_order_hint (ring : list key_entry) (stored : pyval) :
  (forall kid, stored = VStr kid -> nonempty kid = true ->
     attempt_order ring stored = (matching kid ring ++ others kid ring)%list
     /\ ((length (matching kid ring) <= 1)%nat ->
         attempt_order ring stored = Spec.move_to_front ring (Some kid)))
  /\ (stored = VNone \/ truthy stored = false
      \/ (forall kid, stored <> VStr kid)
      \/ (forall entry, In entry ring -> str_eq (fst entry) stored = false) ->
      attempt_order ring stored = ring).
Proof.
  split.
  - intros kid -> Hkid. rewrite (attempt_order_string ring kid Hkid).
    split; [reflexivity|]. apply partition_move_to_front.
  - intros [-> | [Hfalse | [Hnostr | Hnone]]].
    + reflexivity.
    + unfold attempt_order. now rewrite Hfalse.
    + apply attempt_order_no_match. intros entry _.
      destruct stored; try reflexivity. now destruct (Hnostr s).
    + now apply attempt_order_no_match.
Qed.

Lemma attempt_order_hint_witness :
  attempt_order Example.ring_abc (VStr "B")
  = [("B", "/keys/b.pem"); ("A", "/keys/a.pem"); ("C", "/keys/c.pem")]
  /\ attempt_order Example.ring_abc (VStr "Z") = Example.ring_abc.
Proof.
  split.
  - destruct (proj1 (attempt_order_hint Example.ring_abc (VStr "B")) "B")
      as [_ Hfront]; [reflexivity | reflexivity |].
    rewrite Hfront; [reflexivity | simpl; lia].
  - apply (proj2 (attempt_order_hint Example.ring_abc (VStr "Z"))).
    right. right. right. intros entry Hin. simpl in Hin.
    destruct Hin as [<- | [<- | [<- | []]]]; reflexivity.
Defined.

(** C1 (as stated) fails. When two entries carry the hinted id both come
    first, so the second of them overtakes entries it used to follow; and
    the hint that is the empty string moves nothing, although an entry
    carries that id. *)
Lemma attempt_order_not_move_to_front :
  attempt_order Example.ring_with_duplicate (VStr "2025")
  = [("2025", "/keys/b.pem"); ("2025", "/keys/d.pem");
     ("2024", "/keys/a.pem"); ("2030", "/keys/c.pem")]
  /\ Spec.move_to_front Example.ring_with_duplicate (Some "2025")
     = [("2025", "/keys/b.pem"); ("2024", "/keys/a.pem");
        ("2030", "/keys/c.pem"); ("2025", "/keys/d.pem")]
  /\ attempt_order Example.ring_with_duplicate (VStr "2025")
     <> Spec.move_to_front Example.ring_with_duplicate (Some "2025")
  /\ attempt_order [("2025", "/keys/a.pem"); (EmptyString, "/keys/b.pem")]
                   (VStr EmptyString)
     <> Spec.move_to_front [("2025", "/keys/a.pem"); (EmptyString, "/keys/b.pem")]
                           (Some EmptyString).
Proof.
  repeat split; try reflexivity; discriminate.
Qed.

End Order.

(** ** The loop over the candidates *)

Section Loop.

Context (E : environment) (aud : string).

Lemma last_cons {A : Type} (a : A) (l : list A) (d : A) :
  List.last (a :: l) d = List.last l a.
Proof.
  revert a d. induction l as [|b l IH]; intros a d; [reflexivity|].
  change (List.last (b :: l) d = List.last (b :: l) a).
  now rewrite !IH.
Qed.

Lemma last_recorded_cons (last_err : option last_error) (err : last_error)
  (errs : list last_error) :
  last_recorded last_err (err :: errs) = last_recorded (Some err) errs.
Proof. unfold last_recorded. simpl map. apply last_cons. Qed.

Lemma last_recorded_snoc (last_err : option last_error) (errs : list last_error)
  (err : last_error) :
  last_recorded last_err (errs ++ [err]) = Some err.
Proof. unfold last_recorded. rewrite map_app. apply last_last. Qed.

Lemma try_candidates_step (c : key_entry) (rest : list key_entry)
  (last_err : option last_error) (st : state) (outcome : iteration) (st1 : state) :
  attempt E aud (fst c) (snd c) st = (Ok outcome, st1) ->
  try_candidates E aud (c :: rest) last_err st
  = match outcome with
    | Returns access_token instance_url => (Ok (access_token, instance_url), st1)
    | Records err => try_candidates E aud rest (Some err) st1
    end.
Proof.
  intros Hattempt. destruct c as [kid key_path]. simpl in *.
  unfold mbind, M_bind. rewrite Hattempt. now destruct outcome.
Qed.

(** Candidates that fail are passed over one by one; what remains of
    them is the last error. *)
Lemma try_candidates_all_fail (failing : list key_entry) (st : state)
  (errs : list last_error) (st' : state) :
  all_fail E aud failing st errs st' ->
  forall (rest : list key_entry) (last_err : option last_error),
    try_candidates E aud (failing ++ rest) last_err st
    = try_candidates E aud rest (last_recorded last_err errs) st'.
Proof.
  induction 1 as [st | c failing st err st1 errs st' Hc _ IH]; intros rest last_err.
  - reflexivity.
  - destruct (attempt_fails E aud c st err st1 Hc) as (Hattempt & _).
    rewrite <- app_comm_cons, (try_candidates_step _ _ _ _ _ _ Hattempt).
    now rewrite IH, last_recorded_cons.
Qed.

Lemma all_fail_frame (failing : list key_entry) (st : state)
  (errs : list last_error) (st' : state) :
  all_fail E aud failing st errs st' ->
  snapshot st' = snapshot st /\ keymap st' = keymap st
  /\ length errs = length failing.
Proof.
  induction 1 as [st | c failing st err st1 errs st' Hc _ IH]; [auto|].
  destruct (attempt_fails E aud c st err st1 Hc) as (_ & Hsnap & Hkm).
  destruct IH as (Hsnap' & Hkm' & Hlen).
  repeat split; [congruence | congruence | simpl; congruence].
Qed.

Lemma all_fail_recorded (failing : list key_entry) (st : state)
  (errs : list last_error) (st' : state) :
  all_fail E aud failing st errs st' -> all_recorded E aud failing st errs st'.
Proof.
  induction 1 as [st | c failing st err st1 errs st' Hc _ IH]; econstructor; eauto.
  now apply attempt_fails.
Qed.

(** Candidates that are recorded are passed over the same way. *)
Lemma try_candidates_all_recorded (recorded : list key_entry) (st : state)
  (errs : list last_error) (st' : state) :
  all_recorded E aud recorded st errs st' ->
  forall (rest : list key_entry) (last_err : option last_error),
    try_candidates E aud (recorded ++ rest) last_err st
    = try_candidates E aud rest (last_recorded last_err errs) st'.
Proof.
  induction 1 as [st | c recorded st err st1 errs st' Hc _ IH]; intros rest last_err.
  - reflexivity.
  - rewrite <- app_comm_cons, (try_candidates_step _ _ _ _ _ _ Hc).
    now rewrite IH, last_recorded_cons.
Qed.

(** Through recorded candidates [keymap] stays the loaded dict, up to the
    tenant's entry. *)
Lemma all_recorded_keymap (recorded : list key_entry) (st : state)
  (errs : list last_error) (st' : state) (m : gmap string pyval) :
  all_recorded E aud recorded st errs st' ->
  keymap st = VDict m \/ (exists k, keymap st = VDict (<[TENANT_ID E := VStr k]> m)) ->
  keymap st' = VDict m \/ (exists k, keymap st' = VDict (<[TENANT_ID E := VStr k]> m)).
Proof.
  induction 1 as [st | [kid key_path] recorded st err st1 errs st' Hc _ IH];
    intros Hkm; [exact Hkm|].
  apply IH. simpl in Hc.
  assert (Hdict : exists m0, keymap st = VDict m0
            /\ <[TENANT_ID E := VStr kid]> m0 = <[TENANT_ID E := VStr kid]> m).
  { destruct Hkm as [Hkm | [k Hkm]]; eexists; (split; [exact Hkm|]);
      [reflexivity | apply insert_insert_eq]. }
  destruct Hdict as (m0 & Hm0 & Hins).
  destruct (attempt_outcome E aud kid key_path st m0 Hm0)
    as (outcome & st2 & Hattempt & Hout).
  rewrite Hc in Hattempt. injection Hattempt as <- <-.
  rewrite Hins in Hout. destruct Hout as [Hout | Hout]; [|eauto].
  rewrite Hout, <- Hm0. exact Hkm.
Qed.

(** A call that returns went through candidates that were recorded, up to
    one whose exchange succeeded; the record then handed to [save_keymap]
    is the one the loop started from, with the tenant set to that
    candidate's id. *)
Lemma try_candidates_returns (ordered : list key_entry) :
  forall (last_err : option last_error) (st : state) (m : gmap string pyval)
         (a h : pyval) (st' : state),
    keymap st = VDict m \/ (exists k, keymap st = VDict (<[TENANT_ID E := VStr k]> m)) ->
    try_candidates E aud ordered last_err st = (Ok (a, h), st') ->
    exists pre c post errs st1 st2,
      ordered = (pre ++ c :: post)%list
      /\ all_recorded E aud pre st errs st1
      /\ candidate_succeeds E aud c st1 a h st2
      /\ st' = snd (save_keymap E (VDict (<[TENANT_ID E := VStr (fst c)]> m))
                      (set_keymap (VDict (<[TENANT_ID E := VStr (fst c)]> m)) st2))
      /\ keymap st' = VDict (<[TENANT_ID E := VStr (fst c)]> m).
Proof.
  induction ordered as [|[kid key_path] rest IH]; intros last_err st m a h st' Hkm Hrun.
  - discriminate.
  - assert (Hdict : exists m0, keymap st = VDict m0
              /\ <[TENANT_ID E := VStr kid]> m0 = <[TENANT_ID E := VStr kid]> m).
    { destruct Hkm as [Hkm | [k Hkm]]; eexists; (split; [exact Hkm|]);
        [reflexivity | apply insert_insert_eq]. }
    destruct Hdict as (m0 & Hm0 & Hins).
    destruct (attempt_outcome E aud kid key_path st m0 Hm0)
      as (outcome & st1 & Hattempt & Hout).
    rewrite (try_candidates_step (kid, key_path) _ _ _ _ _ Hattempt) in Hrun.
    rewrite Hins in Hout.
    destruct outcome as [a' h' | err].
    + injection Hrun as <- <- <-. destruct Hout as (st2 & Hsucc & Hst & Hrec).
      exists [], (kid, key_path), rest, [], st, st2.
      repeat split; auto. constructor.
    + assert (Hkm1 : keymap st1 = VDict m
                     \/ (exists k, keymap st1 = VDict (<[TENANT_ID E := VStr k]> m))).
      { destruct Hout as [Hout | Hout]; [|eauto].
        rewrite Hout, <- Hm0. exact Hkm. }
      destruct (IH _ _ _ _ _ _ Hkm1 Hrun)
        as (pre & c & post & errs & st2 & st3 & -> & Hpre & Hrest).
      exists ((kid, key_path) :: pre), c, post, (err :: errs), st2, st3.
      split; [reflexivity|]. split; [|exact Hrest].
      econstructor; eauto.
Qed.

End Loop.

(** ** The acquisition as a whole *)

Section Acquisition.

Context (E : environment).

Lemma plan_attempts_run (st : state) (keyring : list key_entry)
  (m : gmap string pyval) (st1 : state) :
  parse_keyring E = Ok keyring -> keyring <> [] ->
  load_keymap E st = (Ok (VDict m), st1) ->
  plan_attempts E st
  = (Ok (attempt_order keyring (default VNone (m !! TENANT_ID E))),
     set_keymap (VDict m) st1).
Proof.
  intros Hring Hne Hload. unfold plan_attempts, assign_keymap. run_monad.
  rewrite Hring. destruct keyring as [|c keyring]; [contradiction|].
  now rewrite Hload.
Qed.

Lemma plan_attempts_ok (st : state) (ordered : list key_entry) (st0 : state) :
  plan_attempts E st = (Ok ordered, st0) ->
  exists keyring m,
    parse_keyring E = Ok keyring /\ keyring <> []
    /\ load_keymap E st = (Ok (VDict m), log (EvOpenRead (KEYMAP_PATH E)) st)
    /\ st0 = set_keymap (VDict m) (log (EvOpenRead (KEYMAP_PATH E)) st)
    /\ ordered = attempt_order keyring (default VNone (m !! TENANT_ID E)).
Proof.
  unfold plan_attempts, assign_keymap. run_monad.
  destruct (parse_keyring E) as [keyring|r]; [|discriminate].
  destruct keyring as [|c keyring]; [discriminate|].
  destruct (load_keymap_returns E st) as (v & Hload). rewrite Hload. simpl.
  destruct v; try discriminate.
  intros [= <- <-]. eexists _, _. repeat split; auto; discriminate.
Qed.

Lemma plan_attempts_candidates (st : state) (ordered : list key_entry)
  (st0 : state) :
  plan_attempts E st = (Ok ordered, st0) ->
  ordered <> [] /\ snapshot st0 = snapshot st
  /\ exists m, keymap st0 = VDict m.
Proof.
  intros Hplan.
  destruct (plan_attempts_ok _ _ _ Hplan) as (keyring & m & _ & Hne & _ & -> & ->).
  split; [|split; [reflexivity | eauto]].
  destruct keyring as [|c keyring]; [contradiction|].
  intros Hnil.
  assert (Hin : In c (attempt_order (c :: keyring) (default VNone (m !! TENANT_ID E))))
    by (apply attempt_order_In; left; reflexivity).
  rewrite Hnil in Hin. destruct Hin.
Qed.

Lemma get_access_token_plan (st : state) (ordered : list key_entry) (st0 : state) :
  plan_attempts E st = (Ok ordered, st0) ->
  get_access_token_via_jwt E st
  = try_candidates E (audience_from_domain (SF_DOMAIN E)) ordered None st0.
Proof.
  intros Hplan. unfold get_access_token_via_jwt, mbind, M_bind.
  now rewrite Hplan.
Qed.

Lemma get_access_token_ok (st : state) (a h : pyval) (st' : state) :
  get_access_token_via_jwt E st = (Ok (a, h), st') ->
  exists ordered st0,
    plan_attempts E st = (Ok ordered, st0)
    /\ try_candidates E (audience_from_domain (SF_DOMAIN E)) ordered None st0
       = (Ok (a, h), st').
Proof.
  unfold get_access_token_via_jwt, mbind, M_bind.
  destruct (plan_attempts E st) as [[ordered|r] st0]; [eauto | discriminate].
Qed.

End Acquisition.

(** The last of the candidates that failed, with the error it recorded. *)
Lemma all_fail_last (E : environment) (aud : string) (failing : list key_entry)
  (st : state) (errs : list last_error) (st' : state) :
  all_fail E aud failing st errs st' ->
  forall earlier err,
    errs = (earlier ++ [err])%list ->
    exists pre c st_k,
      failing = (pre ++ [c])%list
      /\ all_fail E aud pre st earlier st_k
      /\ candidate_fails E aud c st_k err st'.
Proof.
  induction 1 as [st | c failing st err0 st1 errs st' Hc Hrest IH];
    intros earlier err Herrs.
  - now destruct earlier.
  - destruct earlier as [|err1 earlier].
    + injection Herrs as -> ->. inversion Hrest; subst.
      exists [], c, st. repeat split; [constructor | exact Hc].
    + injection Herrs as <- ->.
      destruct (IH earlier err eq_refl) as (pre & c' & st_k & -> & Hpre & Hlast).
      exists (c :: pre), c', st_k. repeat split; [|exact Hlast].
      econstructor; eauto.
Qed.

(** X13. When every candidate of the attempt order fails before any ok
    response (its key cannot be read, signing raises, the request raises,
    or the response is not ok), the call raises a [RuntimeError] whose
    text is the fixed sentence naming the tenant followed by the printed
    pair of the error the last candidate recorded, whatever the earlier
    ones recorded; and the snapshot file is what it was before the call. *)
Theorem exhaustion_reports_last_error (E : environment) (st : state)
  (ordered : list key_entry) (st0 : state) (errs : list last_error) (st' : state) :
  plan_attempts E st = (Ok ordered, st0) ->
  all_fail E (audience_from_domain (SF_DOMAIN E)) ordered st0 errs st' ->
  exists earlier err pre c st_k,
    errs = (earlier ++ [err])%list
    /\ ordered = (pre ++ [c])%list
    /\ candidate_fails E (audience_from_domain (SF_DOMAIN E)) c st_k err st'
    /\ get_access_token_via_jwt E st
       = (Raise (Exception (PyExc "RuntimeError"
            ("JWT exchange failed for tenant='" +:+ TENANT_ID E
             +:+ "'. Last error: "
             +:+ match err with
                 | StatusError status body =>
                     "(" +:+ pretty status +:+ ", " +:+ py_repr E body +:+ ")"
                 | RaisedError name message =>
                     "(" +:+ py_repr E name +:+ ", " +:+ py_repr E message +:+ ")"
                 end))), st')
    /\ snapshot st' = snapshot st.
Proof.
  intros Hplan Hfail.
  destruct (plan_attempts_candidates E _ _ _ Hplan) as (Hne & Hsnap0 & _).
  destruct (all_fail_frame E _ _ _ _ _ Hfail) as (Hsnap & _ & Hlen).
  destruct (exists_last (l := errs)) as (earlier & err & ->).
  { intros ->. destruct ordered; [contradiction | discriminate]. }
  destruct (all_fail_last E _ _ _ _ _ Hfail earlier err eq_refl)
    as (pre & c & st_k & Hordered & _ & Hlast).
  exists earlier, err, pre, c, st_k.
  split; [reflexivity|]. split; [exact Hordered|]. split; [exact Hlast|].
  split; [|congruence].
  rewrite (get_access_token_plan E _ _ _ Hplan).
  rewrite <- (app_nil_r ordered).
  rewrite (try_candidates_all_fail E _ _ _ _ _ Hfail [] None).
  rewrite last_recorded_snoc. reflexivity.
Qed.

Lemma exhaustion_reports_last_error_witness :
  exists st' : state,
    get_access_token_via_jwt Example.all_revoked Example.with_hints
    = (Raise (Exception (PyExc "RuntimeError"
         ("JWT exchange failed for tenant='" +:+ TENANT_ID Example.all_revoked
          +:+ "'. Last error: "
          +:+ "(" +:+ py_repr Example.all_revoked "FileNotFoundError" +:+ ", "
          +:+ py_repr Example.all_revoked "[Errno 2] No such file or directory"
          +:+ ")"))), st')
    /\ snapshot st' = snapshot Example.with_hints.
Proof.
  destruct (exhaustion_reports_last_error Example.all_revoked Example.with_hints
              [Example.key_2025; Example.key_2030] Example.planned
              [StatusError 400 "invalid_grant"; Example.file_not_found]
              (log (EvOpenRead "/keys/2030.pem")
                   (Example.exchanged Example.key_2025 Example.planned)))
    as (earlier & err & pre & c & st_k & Herrs & _ & _ & Hrun & Hsnap).
  - vm_compute. reflexivity.
  - apply all_fail_cons with (st1 := Example.exchanged Example.key_2025 Example.planned).
    + right. exists Example.invalid_grant.
      split; [vm_compute; reflexivity|]. split; reflexivity.
    + apply all_fail_cons with
        (st1 := log (EvOpenRead "/keys/2030.pem")
                    (Example.exchanged Example.key_2025 Example.planned));
        [|apply all_fail_nil].
      left. exists (PyExc "FileNotFoundError" "[Errno 2] No such file or directory").
      split; [vm_compute; reflexivity | reflexivity].
  - apply (app_inj_tail [StatusError 400 "invalid_grant"] earlier) in Herrs.
    destruct Herrs as [_ <-].
    eexists. split; [exact Hrun | exact Hsnap].
Defined.

(** C5. When the snapshot file is unreadable, missing, or not JSON,
    [load_keymap] returns the empty record and only the read is logged;
    the acquisition then goes on to try the ring in its original order,
    as it does without any hint. *)
Theorem load_keymap_resilient (E : environment) (st : state) :
  snapshot_unusable E st ->
  load_keymap E st = (Ok (VDict ∅), log (EvOpenRead (KEYMAP_PATH E)) st)
  /\ forall keyring : list key_entry,
       parse_keyring E = Ok keyring -> keyring <> [] ->
       get_access_token_via_jwt E st
       = try_candidates E (audience_from_domain (SF_DOMAIN E)) keyring None
           (set_keymap (VDict ∅) (log (EvOpenRead (KEYMAP_PATH E)) st)).
Proof.
  intros Hbad. pose proof (load_keymap_unusable E st Hbad) as Hload.
  split; [exact Hload|]. intros keyring Hring Hne.
  rewrite (get_access_token_plan E st _ _
             (plan_attempts_run E st keyring ∅ _ Hring Hne Hload)).
  rewrite lookup_empty. reflexivity.
Qed.

Lemma load_keymap_resilient_witness :
  snapshot_unusable Example.rotation Example.fresh
  /\ fst (load_keymap Example.rotation Example.fresh) = Ok (VDict ∅)
  /\ fst (get_access_token_via_jwt Example.rotation Example.fresh)
     = Ok (VStr "00Dxx0000001gPL", VStr "https://acme.my.salesforce.com").
Proof.
  assert (Hbad : snapshot_unusable Example.rotation Example.fresh)
    by (right; left; reflexivity).
  destruct (load_keymap_resilient Example.rotation Example.fresh Hbad)
    as [Hload Hgoes].
  split; [exact Hbad|]. split; [now rewrite Hload|].
  rewrite (Hgoes [("2025", "/keys/2025.pem"); ("2030", "/keys/2030.pem")]);
    [reflexivity | reflexivity | discriminate].
Defined.

(** C6. [save_keymap] never raises: it logs the creation of the parent
    directory, then write events only, and returns, whatever fails; when
    nothing fails the file holds the record. A candidate whose exchange
    succeeded makes the acquisition return the token and the host
    whatever [save_keymap] ran into; if the file cannot be opened for
    writing, the snapshot simply stays as it was. *)
Theorem save_keymap_best_effort (E : environment) :
  (forall (m : pyval) (st : state),
     exists st' evs,
       save_keymap E m st = (Ok tt, st')
       /\ trace st' = (trace st ++ EvMkdir (save_parent E) :: evs)%list
       /\ Forall (fun ev => is_save_event ev = true) evs
       /\ (write_goes_through E m (trace st) ->
           snapshot st' = FileText (inr m)
           /\ trace st' = (trace st ++ save_events E m)%list))
  /\ (forall (aud : string) (c : key_entry) (rest : list key_entry)
        (last_err : option last_error) (st : state) (m : gmap string pyval)
        (a h : pyval) (st1 : state),
        keymap st = VDict m ->
        candidate_succeeds E aud c st a h st1 ->
        exists st',
          try_candidates E aud (c :: rest) last_err st = (Ok (a, h), st')
          /\ forall e : pyexc,
               mkdir_fault E (trace st1) (save_parent E) = None ->
               open_write_fault E (trace st1 ++ [EvMkdir (save_parent E)])
                 (KEYMAP_PATH E) = Some e ->
               snapshot st' = snapshot st).
Proof.
  split.
  - intros m st.
    destruct (save_keymap_returns E m st) as (st' & evs & Hsave & _ & Htrace & Hevs).
    exists st', evs.
    split; [exact Hsave|]. split; [exact Htrace|]. split; [exact Hevs|].
    intros Hthrough. rewrite (save_keymap_written E m st Hthrough) in Hsave.
    injection Hsave as <-. split; reflexivity.
  - intros aud c rest last_err st m a h st1 Hkm Hsucc.
    pose proof (attempt_succeeds E aud c st a h st1 m Hsucc Hkm) as Hattempt.
    simpl in Hattempt. eexists. split.
    + now rewrite (try_candidates_step E aud c rest last_err st _ _ Hattempt).
    + intros e Hmk Hop.
      rewrite (save_keymap_refused E _ _ e); [|exact Hmk | exact Hop].
      destruct Hsucc as (resp & tok & Hreq & _). simpl.
      now destruct (request_token_frame E aud _ _ _ _ _ Hreq) as (-> & _).
Qed.

Lemma save_keymap_best_effort_witness :
  exists st' : state,
    try_candidates Example.rotation_read_only "https://login.salesforce.com"
      [Example.key_2030; Example.key_2025] None Example.planned
    = (Ok (VStr "00Dxx0000001gPL", VStr "https://acme.my.salesforce.com"), st')
    /\ snapshot st' = snapshot Example.planned.
Proof.
  destruct (proj2 (save_keymap_best_effort Example.rotation_read_only)
              "https://login.salesforce.com" Example.key_2030
              [Example.key_2025] None Example.planned
              (<["globex" := VStr "2025"]> (<["acme" := VStr "2025"]> ∅))
              (VStr "00Dxx0000001gPL") (VStr "https://acme.my.salesforce.com")
              (Example.exchanged Example.key_2030 Example.planned))
    as (st' & Hrun & Hsnap).
  - reflexivity.
  - exists Example.ok_response, Example.token_body.
    split; [vm_compute; reflexivity|]. repeat split; vm_compute; reflexivity.
  - exists st'. split; [exact Hrun|].
    apply (Hsnap Example.permission_denied); vm_compute; reflexivity.
Defined.

(** ** Learning from a success *)

Lemma filter_head {A : Type} (f : A -> bool) (l : list A) (x : A) :
  In x l -> f x = true ->
  exists first rest,
    List.filter f l = first :: rest /\ f first = true /\ In first l.
Proof.
  intros Hin Hf.
  assert (Hx : In x (List.filter f l)) by (apply filter_In; auto).
  destruct (List.filter f l) as [|first rest] eqn:Hfilter; [destruct Hx|].
  exists first, rest. split; [reflexivity|].
  assert (Hfirst : In first (List.filter f l)) by (rewrite Hfilter; now left).
  apply filter_In in Hfirst. tauto.
Qed.

(** C2 (as amended). The first candidate whose exchange succeeds, after
    candidates that were recorded as failed, ends the call: the record gets
    the tenant set to that candidate's id and is handed to [save_keymap],
    the token and the host are returned, and nothing but the events of
    that save is logged afterwards, so no later candidate is attempted.
    The save is best-effort: when it goes through, the file holds the
    record, and if moreover the id is not the empty string and the file
    can be read, the next acquisition puts an entry carrying that id
    first; it is the candidate itself when no other entry of the ring
    carries its id. *)
Theorem first_success_wins (E : environment) (st : state)
  (pre : list key_entry) (c : key_entry) (post : list key_entry)
  (st0 : state) (errs : list last_error) (st1 : state) (a h : pyval) (st2 : state) :
  plan_attempts E st = (Ok (pre ++ c :: post)%list, st0) ->
  all_recorded E (audience_from_domain (SF_DOMAIN E)) pre st0 errs st1 ->
  candidate_succeeds E (audience_from_domain (SF_DOMAIN E)) c st1 a h st2 ->
  exists (m : gmap string pyval) (st3 : state),
    keymap st0 = VDict m
    /\ get_access_token_via_jwt E st = (Ok (a, h), st3)
    /\ st3 = snd (save_keymap E (VDict (<[TENANT_ID E := VStr (fst c)]> m))
                    (set_keymap (VDict (<[TENANT_ID E := VStr (fst c)]> m)) st2))
    /\ keymap st3 = VDict (<[TENANT_ID E := VStr (fst c)]> m)
    /\ (exists evs,
          trace st3 = (trace st2 ++ EvMkdir (save_parent E) :: evs)%list
          /\ Forall (fun ev => is_save_event ev = true) evs)
    /\ (write_goes_through E (VDict (<[TENANT_ID E := VStr (fst c)]> m)) (trace st2) ->
        snapshot st3 = FileText (inr (VDict (<[TENANT_ID E := VStr (fst c)]> m)))
        /\ (nonempty (fst c) = true ->
            read_denied E (trace st3) (KEYMAP_PATH E) = None ->
            exists first rest st4,
              plan_attempts E st3 = (Ok (first :: rest), st4)
              /\ fst first = fst c
              /\ ((forall keyring other,
                     parse_keyring E = Ok keyring -> In other keyring ->
                     fst other = fst c -> other = c) ->
                  first = c))).
Proof.
  intros Hplan Hpre Hsucc.
  destruct (plan_attempts_ok E _ _ _ Hplan)
    as (keyring & m & Hring & Hne & _ & Hst0 & Horder).
  assert (Hkm0 : keymap st0 = VDict m) by now rewrite Hst0.
  assert (Hdict : exists m1, keymap st1 = VDict m1
            /\ <[TENANT_ID E := VStr (fst c)]> m1 = <[TENANT_ID E := VStr (fst c)]> m).
  { destruct (all_recorded_keymap E _ _ _ _ _ m Hpre (or_introl Hkm0))
      as [Hkm | [k Hkm]]; eexists; (split; [exact Hkm|]);
      [reflexivity | apply insert_insert_eq]. }
  destruct Hdict as (m1 & Hkm1 & Hins).
  pose proof (attempt_succeeds E _ c st1 a h st2 m1 Hsucc Hkm1) as Hattempt.
  simpl in Hattempt. rewrite Hins in Hattempt.
  set (record := VDict (<[TENANT_ID E := VStr (fst c)]> m)) in *.
  destruct (save_keymap_returns E record (set_keymap record st2))
    as (st3 & evs & Hsave & Hkm3 & Htrace & Hevs).
  exists m, st3. fold record. rewrite Hsave in Hattempt |- *. simpl in *.
  split; [exact Hkm0|]. split; [|split; [reflexivity|]].
  { rewrite (get_access_token_plan E _ _ _ Hplan).
    rewrite (try_candidates_all_recorded E _ _ _ _ _ Hpre).
    now rewrite (try_candidates_step E _ c post _ st1 _ _ Hattempt). }
  split; [exact Hkm3|]. split; [eauto|].
  intros Hthrough.
  rewrite (save_keymap_written E record (set_keymap record st2) Hthrough) in Hsave.
  injection Hsave as <-. split; [reflexivity|].
  intros Hkid Hread.
  assert (Hin : In c keyring).
  { apply (attempt_order_In keyring (default VNone (m !! TENANT_ID E))).
    rewrite <- Horder. apply in_elt. }
  destruct (filter_head (fun entry => String.eqb (fst entry) (fst c)) keyring c Hin
              (String.eqb_refl _))
    as (first & rest & Hfilter & Hfirst & Hfirst_in).
  eexists first, _, _. split; [|split].
  - rewrite (plan_attempts_run E _ keyring (<[TENANT_ID E := VStr (fst c)]> m) _
               Hring Hne (load_keymap_holds E _ record Hread eq_refl)).
    rewrite lookup_insert_eq. simpl.
    rewrite (attempt_order_string keyring (fst c) Hkid). unfold matching.
    rewrite Hfilter. reflexivity.
  - now apply String.eqb_eq.
  - intros Hunique. apply (Hunique keyring first Hring Hfirst_in).
    now apply String.eqb_eq.
Qed.

Lemma first_success_wins_witness :
  exists st3 st4 : state,
    get_access_token_via_jwt Example.rotation Example.with_hints
    = (Ok (VStr "00Dxx0000001gPL", VStr "https://acme.my.salesforce.com"), st3)
    /\ plan_attempts Example.rotation st3
       = (Ok [Example.key_2030; Example.key_2025], st4).
Proof.
  destruct (first_success_wins Example.rotation Example.with_hints
              [Example.key_2025] Example.key_2030 [] Example.planned
              [StatusError 400 "invalid_grant"]
              (Example.exchanged Example.key_2025 Example.planned)
              (VStr "00Dxx0000001gPL") (VStr "https://acme.my.salesforce.com")
              (Example.exchanged Example.key_2030
                 (Example.exchanged Example.key_2025 Example.planned)))
    as (m & st3 & Hm & Hrun & Hst3 & _ & _ & Hlearn).
  - vm_compute. reflexivity.
  - apply all_recorded_cons with
      (st1 := Example.exchanged Example.key_2025 Example.planned);
      [|apply all_recorded_nil].
    vm_compute. reflexivity.
  - exists Example.ok_response, Example.token_body.
    split; [vm_compute; reflexivity|]. repeat split; vm_compute; reflexivity.
  - injection Hm as <-.
    destruct Hlearn as [_ Hnext]; [repeat split; vm_compute; reflexivity|].
    destruct Hnext as (first & rest & st4 & Hplan & _ & _);
      [reflexivity | subst st3; vm_compute; reflexivity |].
    exists st3, st4. split; [exact Hrun|].
    rewrite Hplan. subst st3. vm_compute in Hplan.
    injection Hplan as <- <- _. reflexivity.
Defined.

(** C2 (as stated) fails. The stored hint points at the 2025 key, which
    the provider rejects; the 2030 key succeeds and the token is returned,
    but the snapshot cannot be written. The next acquisition still finds
    the old hint and tries the 2025 key first. *)
Lemma save_failure_loses_hint :
  exists st3 st4 : state,
    all_fail Example.rotation_read_only "https://login.salesforce.com"
      [Example.key_2025] Example.planned [StatusError 400 "invalid_grant"]
      (Example.exchanged Example.key_2025 Example.planned)
    /\ candidate_succeeds Example.rotation_read_only "https://login.salesforce.com"
         Example.key_2030 (Example.exchanged Example.key_2025 Example.planned)
         (VStr "00Dxx0000001gPL") (VStr "https://acme.my.salesforce.com")
         (Example.exchanged Example.key_2030
            (Example.exchanged Example.key_2025 Example.planned))
    /\ get_access_token_via_jwt Example.rotation_read_only Example.with_hints
       = (Ok (VStr "00Dxx0000001gPL", VStr "https://acme.my.salesforce.com"), st3)
    /\ snapshot st3 = snapshot Example.with_hints
    /\ plan_attempts Example.rotation_read_only st3
       = (Ok [Example.key_2025; Example.key_2030], st4).
Proof.
  exists (snd (get_access_token_via_jwt Example.rotation_read_only Example.with_hints)),
         (snd (plan_attempts Example.rotation_read_only
                 (snd (get_access_token_via_jwt Example.rotation_read_only
                         Example.with_hints)))).
  split; [|split; [|split; [|split]]].
  - apply all_fail_cons with (st1 := Example.exchanged Example.key_2025 Example.planned);
      [|apply all_fail_nil].
    right. exists Example.invalid_grant.
    split; [vm_compute; reflexivity|]. split; reflexivity.
  - exists Example.ok_response, Example.token_body.
    split; [vm_compute; reflexivity|]. repeat split; vm_compute; reflexivity.
  - vm_compute. reflexivity.
  - vm_compute. reflexivity.
  - vm_compute. reflexivity.
Qed.

(** ** The record handed to [save_keymap] *)

(** X14. In every acquisition that returns, the call went through
    candidates that were recorded and reached one whose exchange
    succeeded; the record handed to [save_keymap] right before the return
    is the record [load_keymap] returned with the tenant's entry set to
    that candidate's id: the entry of every other tenant is what it was,
    and every tenant that had an entry still has one. *)
Theorem save_preserves_other_tenants (E : environment) (st : state)
  (a h : pyval) (st' : state) :
  get_access_token_via_jwt E st = (Ok (a, h), st') ->
  exists (m : gmap string pyval) (pre : list key_entry) (c : key_entry)
         (post : list key_entry) (errs : list last_error) (st0 st1 st2 : state),
    load_keymap E st = (Ok (VDict m), log (EvOpenRead (KEYMAP_PATH E)) st)
    /\ plan_attempts E st = (Ok (pre ++ c :: post)%list, st0)
    /\ all_recorded E (audience_from_domain (SF_DOMAIN E)) pre st0 errs st1
    /\ candidate_succeeds E (audience_from_domain (SF_DOMAIN E)) c st1 a h st2
    /\ st' = snd (save_keymap E (VDict (<[TENANT_ID E := VStr (fst c)]> m))
                    (set_keymap (VDict (<[TENANT_ID E := VStr (fst c)]> m)) st2))
    /\ keymap st' = VDict (<[TENANT_ID E := VStr (fst c)]> m)
    /\ (<[TENANT_ID E := VStr (fst c)]> m) !! TENANT_ID E = Some (VStr (fst c))
    /\ (forall tenant : string, tenant <> TENANT_ID E ->
          (<[TENANT_ID E := VStr (fst c)]> m) !! tenant = m !! tenant)
    /\ (forall tenant : string, is_Some (m !! tenant) ->
          is_Some ((<[TENANT_ID E := VStr (fst c)]> m) !! tenant)).
Proof.
  intros Hrun.
  destruct (get_access_token_ok E _ _ _ _ Hrun) as (ordered & st0 & Hplan & Hloop).
  destruct (plan_attempts_ok E _ _ _ Hplan)
    as (keyring & m & _ & _ & Hload & Hst0 & _).
  destruct (try_candidates_returns E _ ordered None st0 m a h st'
              (or_introl (eq_trans (f_equal keymap Hst0) eq_refl)) Hloop)
    as (pre & c & post & errs & st1 & st2 & -> & Hpre & Hsucc & Hst' & Hkm).
  exists m, pre, c, post, errs, st0, st1, st2.
  repeat split; auto.
  - apply lookup_insert_eq.
  - intros tenant Hother. now apply lookup_insert_ne.
  - intros tenant Hsome. rewrite lookup_insert. now case_decide.
Qed.

Lemma save_preserves_other_tenants_witness :
  exists (m : gmap string pyval) (kid : string),
    keymap (snd (get_access_token_via_jwt Example.rotation Example.with_hints))
    = VDict (<[TENANT_ID Example.rotation := VStr kid]> m)
    /\ (<[TENANT_ID Example.rotation := VStr kid]> m) !! "globex" = Some (VStr "2025").
Proof.
  destruct (save_preserves_other_tenants Example.rotation Example.with_hints
              (VStr "00Dxx0000001gPL") (VStr "https://acme.my.salesforce.com")
              (snd (get_access_token_via_jwt Example.rotation Example.with_hints)))
    as (m & pre & c & post & errs & st0 & st1 & st2
        & Hload & _ & _ & _ & _ & Hkm & _ & Hframe & _).
  - vm_compute. reflexivity.
  - exists m, (fst c). split; [exact Hkm|].
    rewrite (Hframe "globex") by (vm_compute; discriminate).
    vm_compute in Hload. injection Hload as <-. vm_compute. reflexivity.
Defined.

(** * Further properties of the acquisition core *)

(** ** Trimmed identifiers *)

Section Trimming.

Lemma rstrip_idempotent (s : string) : rstrip (rstrip s) = rstrip s.
Proof.
  induction s as [|c s IH]; simpl; [reflexivity|].
  destruct (rstrip s) as [|a r] eqn:Hr.
  - destruct (py_isspace c) eqn:Hc; simpl; [reflexivity|]. now rewrite Hc.
  - simpl. simpl in IH. now rewrite IH.
Qed.

Lemma lstrip_head (s : string) :
  match lstrip s with
  | EmptyString => True
  | String c _ => py_isspace c = false
  end.
Proof.
  induction s as [|c s IH]; simpl; [exact I|].
  destruct (py_isspace c) eqn:Hc; [exact IH | exact Hc].
Qed.

Lemma rstrip_head (c : ascii) (s : string) :
  py_isspace c = false -> exists r, rstrip (String c s) = String c r.
Proof.
  intros Hc. simpl. destruct (rstrip s); [rewrite Hc|]; eauto.
Qed.

Lemma strip_idempotent (s : string) : strip (strip s) = strip s.
Proof.
  unfold strip. pose proof (lstrip_head s) as Hhead.
  destruct (lstrip s) as [|c t]; [reflexivity|].
  destruct (rstrip_head c t Hhead) as (r & Hr).
  rewrite Hr. simpl lstrip. rewrite Hhead, <- Hr.
  apply rstrip_idempotent.
Qed.

Lemma contains_lstrip_inv (sep : ascii) (s : string) :
  contains sep (lstrip s) = true -> contains sep s = true.
Proof.
  induction s as [|c s IH]; simpl; [discriminate|].
  destruct (py_isspace c); [|exact (fun H => H)].
  intros H. rewrite (IH H). apply orb_true_r.
Qed.

Lemma contains_rstrip_inv (sep : ascii) (s : string) :
  contains sep (rstrip s) = true -> contains sep s = true.
Proof.
  induction s as [|c s IH]; simpl; [discriminate|].
  destruct (rstrip s) as [|a r]; simpl.
  - destruct (py_isspace c); simpl; [discriminate|].
    rewrite orb_false_r. intros ->. reflexivity.
  - simpl in IH. destruct (Ascii.eqb c sep); [reflexivity|]. exact IH.
Qed.

Lemma contains_strip_inv (sep : ascii) (s : string) :
  contains sep (strip s) = true -> contains sep s = true.
Proof.
  intros H. now apply contains_lstrip_inv, contains_rstrip_inv.
Qed.

Lemma before_first_free (sep : ascii) (s : string) :
  contains sep (before_first sep s) = false.
Proof.
  induction s as [|c s IH]; simpl; [reflexivity|].
  destruct (Ascii.eqb c sep) eqn:Hc; [reflexivity|]. simpl. now rewrite Hc.
Qed.

Lemma contains_before_first_inv (c sep : ascii) (s : string) :
  contains c (before_first sep s) = true -> contains c s = true.
Proof.
  induction s as [|a s IH]; simpl; [discriminate|].
  destruct (Ascii.eqb a sep); simpl; [discriminate|].
  destruct (Ascii.eqb a c); [reflexivity|]. exact IH.
Qed.

Lemma split_parts_free (sep : ascii) (s : string) :
  Forall (fun part => contains sep part = false) (split sep s).
Proof.
  induction s as [|c s IH]; simpl; [repeat constructor|].
  destruct (Ascii.eqb c sep) eqn:Hc; [constructor; [reflexivity | exact IH]|].
  destruct (split sep s) as [|p ps]; [repeat constructor; simpl; now rewrite Hc|].
  inversion IH as [|? ? Hp Hps]; subst.
  constructor; [simpl; now rewrite Hc, Hp | exact Hps].
Qed.

End Trimming.

(** X8. Every key id of a ring parsed from a non-empty specification is
    trimmed (stripping it again changes nothing) and holds neither the
    [:] that ends an id nor the [,] that separates entries. *)
Theorem parsed_ids_are_clean (E : environment) (ring : list key_entry)
  (kid location : string) :
  nonempty (SF_KEYS E) = true ->
  parse_keyring E = Ok ring ->
  In (kid, location) ring ->
  strip kid = kid /\ contains ":" kid = false /\ contains "," kid = false.
Proof.
  intros Hspec Hparse Hin. unfold parse_keyring in Hparse.
  rewrite Hspec, parse_parts_entries in Hparse. injection Hparse as <-.
  simpl in Hin. apply in_map_iff in Hin.
  destruct Hin as (part & [= <- _] & Hpart).
  apply filter_In in Hpart. destruct Hpart as [Hpart _].
  apply in_map_iff in Hpart. destruct Hpart as (raw & <- & Hraw).
  split; [apply strip_idempotent|]. split.
  - rewrite contains_strip by reflexivity. apply before_first_free.
  - destruct (contains "," (strip (before_first ":" (strip raw)))) eqn:Hcomma;
      [|reflexivity].
    apply contains_strip_inv, contains_before_first_inv, contains_strip_inv in Hcomma.
    pose proof (split_parts_free "," (SF_KEYS E)) as Hfree.
    rewrite List.Forall_forall in Hfree. rewrite (Hfree raw Hraw) in Hcomma.
    discriminate.
Qed.

Lemma parsed_ids_are_clean_witness :
  strip "2030" = "2030" /\ contains ":" "2030" = false /\ contains "," "2030" = false.
Proof.
  apply (parsed_ids_are_clean Example.rotation
           [Example.key_2025; Example.key_2030] "2030" "/keys/2030.pem").
  - reflexivity.
  - vm_compute. reflexivity.
  - right. left. reflexivity.
Defined.

(** ** The attempt order keeps every candidate *)

Lemma partition_permutation {A : Type} (f : A -> bool) (l : list A) :
  Permutation l (List.filter f l ++ List.filter (fun x => negb (f x)) l).
Proof.
  induction l as [|x l IH]; simpl; [constructor|].
  destruct (f x); simpl.
  - now constructor.
  - now apply Permutation_cons_app.
Qed.

(** X1. Whatever is stored for the tenant, the attempt order is a
    rearrangement of the ring: no candidate is dropped and none is tried
    twice, so as many candidates are in line as the ring has entries. *)
Theorem attempt_order_permutation (ring : list key_entry) (stored : pyval) :
  Permutation ring (attempt_order ring stored)
  /\ length (attempt_order ring stored) = length ring.
Proof.
  assert (Hperm : Permutation ring (attempt_order ring stored)).
  { unfold attempt_order. destruct (truthy stored); [|reflexivity].
    apply partition_permutation. }
  split; [exact Hperm|]. symmetry. now apply Permutation_length.
Qed.

(** ** When the script ends in [sys.exit] *)

Lemma parse_keyring_returns (E : environment) :
  exists ring, parse_keyring E = Ok ring.
Proof.
  unfold parse_keyring. destruct (nonempty (SF_KEYS E)).
  - apply parse_parts_never_raises.
  - destruct (nonempty (SF_PRIVATE_KEY_PATH E)); eauto.
Qed.

Lemma load_keymap_no_exit (E : environment) (st : state) (msg : string)
  (st' : state) :
  load_keymap E st <> (Raise (SystemExit msg), st').
Proof.
  destruct (load_keymap_returns E st) as (v & ->). discriminate.
Qed.

(** ** What one pass through the loop logs *)

Section Passes.

Context (E : environment) (aud : string).

Lemma key_reads_app (evs evs' : list event) :
  key_reads (evs ++ evs') = (key_reads evs ++ key_reads evs')%list.
Proof. unfold key_reads. apply flat_map_app. Qed.

Lemma posts_app (evs evs' : list event) :
  posts (evs ++ evs') = (posts evs + posts evs')%nat.
Proof. unfold posts. now rewrite List.filter_app, List.length_app. Qed.

Lemma save_events_quiet (evs : list event) :
  Forall (fun ev => is_save_event ev = true) evs ->
  key_reads evs = [] /\ posts evs = 0%nat.
Proof.
  induction 1 as [|ev evs Hev _ [IHr IHp]]; [split; reflexivity|].
  destruct ev; try discriminate; split; assumption.
Qed.

(** Requesting a token logs the reading of the key and at most the post
    that follows it; a response comes back only from a post. *)
Lemma request_token_trace (kid key_path : string) (st : state)
  (r : result response) (st1 : state) :
  request_token E aud kid key_path st = (r, st1) ->
  exists evs,
    trace st1 = (trace st ++ EvOpenRead key_path :: evs)%list
    /\ key_reads evs = [] /\ (posts evs <= 1)%nat.
Proof.
  rewrite request_token_steps. simpl.
  destruct (read_bytes E (trace st) key_path).
  { intros [= <- <-]. exists []. simpl. auto. }
  destruct (jwt_encode E _ _ kid).
  { intros [= <- <-]. exists []. simpl. auto. }
  destruct (requests_post E _ _ _); intros [= <- <-];
    eexists [_]; simpl; rewrite <- app_assoc; simpl; auto.
Qed.

(** Handling a response raises nothing but exceptions and logs write
    events only; the snapshot can change only for an ok response with a
    JSON body. *)
Lemma handle_response_trace (kid : string) (resp : response) (st : state) :
  exists r st' evs,
    handle_response E kid resp st = (r, st')
    /\ (forall msg, r <> Raise (SystemExit msg))
    /\ trace st' = (trace st ++ evs)%list
    /\ Forall (fun ev => is_save_event ev = true) evs
    /\ (snapshot st' = snapshot st
        \/ (resp_ok resp = true /\ exists tok, resp_json resp = inr tok)).
Proof.
  unfold handle_response, read_keymap, assign_keymap. run_monad.
  destruct (resp_ok resp) eqn:Hok.
  2:{ eexists _, _, []. split; [reflexivity|]. rewrite app_nil_r.
      repeat split; auto; discriminate. }
  destruct (resp_json resp) as [e|tok] eqn:Hjson.
  { eexists _, _, []. split; [reflexivity|]. rewrite app_nil_r.
    repeat split; auto; discriminate. }
  cbn. destruct (py_setitem (keymap st) (TENANT_ID E) (VStr kid)) as [e|km] eqn:Hset.
  { eexists _, _, []. split; [reflexivity|]. rewrite app_nil_r.
    repeat split; auto; discriminate. }
  cbn. destruct (save_keymap_returns E km (set_keymap km st))
    as (st' & evs & Hsave & _ & Htrace & Hevs).
  rewrite Hsave. cbn.
  destruct (py_getitem _ tok "access_token");
    [|destruct (py_getitem _ tok "instance_url")];
    (eexists _, st', (EvMkdir (save_parent E) :: evs);
     split; [reflexivity|];
     split; [discriminate|];
     split; [exact Htrace|];
     split; [constructor; [reflexivity | exact Hevs] | right; eauto]).
Qed.

(** One pass through the loop body always comes back, with the reading of
    the key logged first, no other reading, and at most one post. *)
Lemma attempt_trace (kid key_path : string) (st : state) :
  exists outcome st' evs,
    attempt E aud kid key_path st = (Ok outcome, st')
    /\ trace st' = (trace st ++ EvOpenRead key_path :: evs)%list
    /\ key_reads evs = [] /\ (posts evs <= 1)%nat
    /\ (snapshot st' = snapshot st
        \/ exists resp st1 tok,
             request_token E aud kid key_path st = (Ok resp, st1)
             /\ resp_ok resp = true /\ resp_json resp = inr tok).
Proof.
  unfold attempt, try_except, try_body. run_monad.
  destruct (request_token E aud kid key_path st) as [[resp|r] st1] eqn:Hreq;
    destruct (request_token_trace _ _ _ _ _ Hreq) as (evs1 & Htrace1 & Hreads1 & Hposts1);
    destruct (request_token_frame E aud _ _ _ _ _ Hreq) as (Hsnap1 & _ & _ & Hexc).
  2:{ destruct r as [e|msg]; [|now destruct (Hexc msg)].
      eexists _, _, evs1. repeat split; auto. }
  destruct (handle_response_trace kid resp st1)
    as (r & st' & evs & Hhandle & Hnoexit & Htrace & Hevs & Hsnap).
  destruct (save_events_quiet evs Hevs) as [Hreads Hposts].
  assert (Hlog : trace st' = (trace st ++ EvOpenRead key_path :: evs1 ++ evs)%list).
  { rewrite Htrace, Htrace1, <- app_assoc. reflexivity. }
  assert (Hstore : snapshot st' = snapshot st
            \/ exists resp0 st0 tok,
                 (Ok resp, st1) = (Ok resp0, st0)
                 /\ resp_ok resp0 = true /\ resp_json resp0 = inr tok).
  { destruct Hsnap as [Hsnap | [Hok [tok Hjson]]];
      [left; congruence | right; eauto 6]. }
  rewrite Hhandle.
  destruct r as [outcome | [e|msg]]; [| |now destruct (Hnoexit msg)];
    (eexists _, st', (evs1 ++ evs)%list;
     split; [reflexivity|];
     split; [exact Hlog|];
     split; [now rewrite key_reads_app, Hreads1, Hreads|];
     split; [rewrite posts_app, Hposts; lia | exact Hstore]).
Qed.

End Passes.

(** ** What the whole loop logs *)

Section Runs.

Context (E : environment) (aud : string).

Lemma try_candidates_trace (ordered : list key_entry) :
  forall (last_err : option last_error) (st : state)
         (r : result (pyval * pyval)) (st' : state),
    try_candidates E aud ordered last_err st = (r, st') ->
    exists (n : nat) (evs : list event),
      (n <= length ordered)%nat
      /\ trace st' = (trace st ++ evs)%list
      /\ key_reads evs = map snd (firstn n ordered)
      /\ (posts evs <= n)%nat
      /\ match r with
         | Ok _ => (1 <= n)%nat
         | Raise _ => n = length ordered
         end.
Proof.
  induction ordered as [|c rest IH]; intros last_err st r st' Hrun.
  - injection Hrun as <- <-. exists 0%nat, []. rewrite app_nil_r. simpl. auto.
  - destruct (attempt_trace E aud (fst c) (snd c) st)
      as (outcome & st1 & evs1 & Hattempt & Htrace1 & Hreads1 & Hposts1 & _).
    rewrite (try_candidates_step E aud c rest last_err st _ _ Hattempt) in Hrun.
    destruct outcome as [a h | err].
    + injection Hrun as <- <-. exists 1%nat, (EvOpenRead (snd c) :: evs1).
      simpl. rewrite Hreads1. repeat split; auto; lia.
    + destruct (IH _ _ _ _ Hrun) as (n & evs & Hn & Htrace & Hreads & Hposts & Hr).
      exists (S n), ((EvOpenRead (snd c) :: evs1) ++ evs)%list.
      split; [simpl; lia|]. split; [now rewrite Htrace, Htrace1, <- app_assoc|].
      split; [rewrite key_reads_app; simpl; now rewrite Hreads1, Hreads|].
      split; [rewrite posts_app; unfold posts at 1; simpl;
              fold (posts evs1); lia|].
      destruct r; [lia | simpl; congruence].
Qed.

(** The loop raises only when every candidate was recorded, and then the
    [RuntimeError] of line 128. *)
Lemma try_candidates_raises (ordered : list key_entry) :
  forall (last_err : option last_error) (st : state) (r : raised) (st' : state),
    try_candidates E aud ordered last_err st = (Raise r, st') ->
    exists errs,
      all_recorded E aud ordered st errs st'
      /\ r = Exception (exhausted E (last_recorded last_err errs)).
Proof.
  induction ordered as [|c rest IH]; intros last_err st r st' Hrun.
  - injection Hrun as <- <-. exists []. split; [constructor | reflexivity].
  - destruct (attempt_trace E aud (fst c) (snd c) st)
      as (outcome & st1 & evs1 & Hattempt & _).
    rewrite (try_candidates_step E aud c rest last_err st _ _ Hattempt) in Hrun.
    destruct outcome as [a h | err]; [discriminate|].
    destruct (IH _ _ _ _ Hrun) as (errs & Hrest & ->).
    exists (err :: errs). split; [econstructor; eauto|].
    now rewrite last_recorded_cons.
Qed.



End Runs.

(** How the planning of lines 77-89 can end: in the [sys.exit] for an
    empty ring, in the attempt order, or in the [AttributeError] of
    [keymap.get] when the snapshot holds JSON that is not an object. *)
Lemma plan_attempts_cases (E : environment) (st : state) :
  (parse_keyring E = Ok []
   /\ plan_attempts E st
      = (Raise (SystemExit "No keys found. Set SF_KEYS or SF_PRIVATE_KEY_PATH."), st))
  \/ exists keyring v,
       parse_keyring E = Ok keyring /\ keyring <> []
       /\ load_keymap E st = (Ok v, log (EvOpenRead (KEYMAP_PATH E)) st)
       /\ ((exists m, v = VDict m
              /\ plan_attempts E st
                 = (Ok (attempt_order keyring (default VNone (m !! TENANT_ID E))),
                    set_keymap v (log (EvOpenRead (KEYMAP_PATH E)) st)))
           \/ (is_dict v = false
               /\ plan_attempts E st
                  = (Raise (Exception (PyExc "AttributeError"
                       ("'" +:+ type_name v +:+ "' object has no attribute 'get'"))),
                     set_keymap v (log (EvOpenRead (KEYMAP_PATH E)) st)))).
Proof.
  destruct (parse_keyring_returns E) as ([|c keyring] & Hring).
  - left. split; [exact Hring|].
    unfold plan_attempts. run_monad. now rewrite Hring.
  - right. destruct (load_keymap_returns E st) as (v & Hload).
    exists (c :: keyring), v. repeat split; [exact Hring | discriminate | exact Hload |].
    unfold plan_attempts, assign_keymap. run_monad. rewrite Hring, Hload. simpl.
    destruct v; try (right; split; reflexivity).
    left. eauto.
Qed.

Lemma get_access_token_plan_raises (E : environment) (st : state) (r : raised)
  (st0 : state) :
  plan_attempts E st = (Raise r, st0) ->
  get_access_token_via_jwt E st = (Raise r, st0).
Proof.
  intros Hplan. unfold get_access_token_via_jwt, mbind, M_bind.
  now rewrite Hplan.
Qed.


(** X2. Once the attempts are planned, the key files are opened in the
    attempt order, one read for each candidate tried, and nothing else is
    read: the files read after the snapshot are, in this order, the
    locations of the first [n] candidates (a location that two entries
    share is read once for each), with [n] at least 1 when the call
    returns and [n] the whole order when it raises. *)
Theorem keys_opened_in_attempt_order (E : environment) (st : state)
  (ordered : list key_entry) (st0 : state) (r : result (pyval * pyval))
  (st' : state) :
  plan_attempts E st = (Ok ordered, st0) ->
  get_access_token_via_jwt E st = (r, st') ->
  exists (n : nat) (evs : list event),
    (n <= length ordered)%nat
    /\ trace st' = (trace st ++ EvOpenRead (KEYMAP_PATH E) :: evs)%list
    /\ key_reads evs = map snd (firstn n ordered)
    /\ match r with
       | Ok _ => (1 <= n)%nat
       | Raise _ => n = length ordered
       end.
Proof.
  intros Hplan Hrun. rewrite (get_access_token_plan E _ _ _ Hplan) in Hrun.
  destruct (try_candidates_trace E _ ordered _ _ _ _ Hrun)
    as (n & evs & Hn & Htrace & Hreads & _ & Hr).
  destruct (plan_attempts_ok E _ _ _ Hplan) as (_ & m & _ & _ & _ & -> & _).
  exists n, evs. repeat split; auto.
  rewrite Htrace. simpl. now rewrite <- app_assoc.
Qed.

Lemma keys_opened_in_attempt_order_witness :
  exists (n : nat) (evs : list event),
    trace (snd (get_access_token_via_jwt Example.rotation Example.with_hints))
    = (trace Example.with_hints
       ++ EvOpenRead (KEYMAP_PATH Example.rotation) :: evs)%list
    /\ key_reads evs = map snd (firstn n [Example.key_2025; Example.key_2030])
    /\ (1 <= n)%nat.
Proof.
  destruct (keys_opened_in_attempt_order Example.rotation Example.with_hints
              [Example.key_2025; Example.key_2030] Example.planned
              (Ok (VStr "00Dxx0000001gPL", VStr "https://acme.my.salesforce.com"))
              (snd (get_access_token_via_jwt Example.rotation Example.with_hints)))
    as (n & evs & _ & Htrace & Hreads & Hn).
  - vm_compute. reflexivity.
  - vm_compute. reflexivity.
  - exists n, evs. auto.
Defined.





(** X5. A snapshot that can be read and holds JSON that is not an object
    (an array, a string, a number, [null]) is not treated like a corrupt
    one: the call raises the [AttributeError] of [keymap.get] right after
    reading the snapshot, before any key file is opened or any request
    posted, and the snapshot stays as it is. *)
Theorem non_object_snapshot_is_fatal (E : environment) (st : state)
  (keyring : list key_entry) (v : pyval) :
  parse_keyring E = Ok keyring -> keyring <> [] ->
  read_denied E (trace st) (KEYMAP_PATH E) = None ->
  snapshot st = FileText (inr v) ->
  is_dict v = false ->
  get_access_token_via_jwt E st
  = (Raise (Exception (PyExc "AttributeError"
       ("'" +:+ type_name v +:+ "' object has no attribute 'get'"))),
     set_keymap v (log (EvOpenRead (KEYMAP_PATH E)) st)).
Proof.
  intros Hring Hne Hread Hfile Hv.
  pose proof (load_keymap_holds E st v Hread Hfile) as Hload.
  destruct (plan_attempts_cases E st)
    as [[Hempty _] | (keyring' & v' & _ & _ & Hload' & Hcases)].
  - rewrite Hring in Hempty. injection Hempty as ->. now destruct Hne.
  - rewrite Hload in Hload'. injection Hload' as <-.
    destruct Hcases as [(m & -> & _) | [_ Hplan]]; [discriminate|].
    now apply get_access_token_plan_raises.
Qed.

Lemma non_object_snapshot_is_fatal_witness :
  get_access_token_via_jwt Example.rotation Example.with_array
  = (Raise (Exception (PyExc "AttributeError"
       ("'" +:+ type_name (VList []) +:+ "' object has no attribute 'get'"))),
     set_keymap (VList [])
       (log (EvOpenRead (KEYMAP_PATH Example.rotation)) Example.with_array)).
Proof.
  apply (non_object_snapshot_is_fatal Example.rotation Example.with_array
           [Example.key_2025; Example.key_2030] (VList [])).
  - vm_compute. reflexivity.
  - discriminate.
  - reflexivity.
  - reflexivity.
  - reflexivity.
Defined.

(** X6. The record is saved before the fields of the response are looked
    up. So an ok response whose JSON object lacks [access_token] or
    [instance_url] leaves the candidate recorded as failed, with the
    [KeyError] of the missing field, while its id has already been handed
    to [save_keymap] as the tenant's hint: when that save goes through,
    the snapshot holds the id of a candidate that did not yield a token. *)
Theorem hint_saved_before_fields_are_read (E : environment) (aud : string)
  (c : key_entry) (st : state) (resp : response) (st1 : state)
  (tok m : gmap string pyval) :
  request_token E aud (fst c) (snd c) st = (Ok resp, st1) ->
  resp_ok resp = true ->
  resp_json resp = inr (VDict tok) ->
  tok !! "access_token" = None \/ tok !! "instance_url" = None ->
  keymap st = VDict m ->
  exists (field : string) (st' : state),
    attempt E aud (fst c) (snd c) st
    = (Ok (Records (RaisedError "KeyError" (py_repr E field))), st')
    /\ In field ["access_token"; "instance_url"]
    /\ tok !! field = None
    /\ st' = snd (save_keymap E (VDict (<[TENANT_ID E := VStr (fst c)]> m))
                    (set_keymap (VDict (<[TENANT_ID E := VStr (fst c)]> m)) st1))
    /\ keymap st' = VDict (<[TENANT_ID E := VStr (fst c)]> m)
    /\ (write_goes_through E (VDict (<[TENANT_ID E := VStr (fst c)]> m)) (trace st1) ->
        snapshot st' = FileText (inr (VDict (<[TENANT_ID E := VStr (fst c)]> m)))).
Proof.
  intros Hreq Hok Hjson Hmissing Hkm.
  destruct (request_token_frame E aud _ _ _ _ _ Hreq) as (_ & Hkm1 & _).
  assert (Hkm' : keymap st1 = VDict m) by congruence.
  set (record := VDict (<[TENANT_ID E := VStr (fst c)]> m)).
  destruct (save_keymap_returns E record (set_keymap record st1))
    as (st' & evs & Hsave & Hkmsave & _).
  assert (Hwritten : write_goes_through E record (trace st1) ->
                     snapshot st' = FileText (inr record)).
  { intros Hthrough.
    rewrite (save_keymap_written E record (set_keymap record st1) Hthrough) in Hsave.
    now injection Hsave as <-. }
  assert (Hattempt : attempt E aud (fst c) (snd c) st
            = match py_getitem (py_repr E "access_token") (VDict tok) "access_token" with
              | inl e => (Ok (Records (RaisedError (exc_type e) (exc_text e))), st')
              | inr a =>
                  match py_getitem (py_repr E "instance_url") (VDict tok) "instance_url" with
                  | inl e => (Ok (Records (RaisedError (exc_type e) (exc_text e))), st')
                  | inr h => (Ok (Returns a h), st')
                  end
              end).
  { unfold attempt, try_except, try_body. run_monad. rewrite Hreq.
    rewrite (handle_response_accepted E (fst c) resp st1 (VDict tok) m Hok Hjson Hkm').
    fold record. rewrite Hsave. simpl.
    destruct (tok !! "access_token"); [|reflexivity].
    destruct (tok !! "instance_url"); reflexivity. }
  simpl in Hattempt.
  destruct (tok !! "access_token") as [a|] eqn:Ha.
  - destruct Hmissing as [Hmissing | Hmissing]; [discriminate|].
    rewrite Hmissing in Hattempt.
    exists "instance_url", st'. rewrite Hsave. simpl.
    repeat split; auto; simpl; tauto.
  - exists "access_token", st'. rewrite Hsave. simpl.
    repeat split; auto; simpl; tauto.
Qed.

Lemma hint_saved_before_fields_are_read_witness :
  exists (field : string) (st' : state),
    attempt (Example.answering Example.no_token_body Example.rotation)
      "https://login.salesforce.com" "2030" "/keys/2030.pem" Example.planned
    = (Ok (Records (RaisedError "KeyError" (Example.plain_repr field))), st')
    /\ snapshot st'
       = FileText (inr (VDict (<["acme" := VStr "2030"]>
                                 (<["globex" := VStr "2025"]>
                                    (<["acme" := VStr "2025"]> ∅))))).
Proof.
  destruct (hint_saved_before_fields_are_read
              (Example.answering Example.no_token_body Example.rotation)
              "https://login.salesforce.com" Example.key_2030 Example.planned
              Example.no_token_body
              (Example.exchanged Example.key_2030 Example.planned)
              (<["instance_url" := VStr "https://acme.my.salesforce.com"]> ∅)
              (<["globex" := VStr "2025"]> (<["acme" := VStr "2025"]> ∅)))
    as (field & st' & Hattempt & _ & _ & _ & _ & Hwritten).
  - vm_compute. reflexivity.
  - reflexivity.
  - reflexivity.
  - left. vm_compute. reflexivity.
  - reflexivity.
  - exists field, st'. split; [exact Hattempt|].
    apply Hwritten. repeat split; vm_compute; reflexivity.
Defined.

(** X7. The script ends in [sys.exit] for configuration reasons only, and
    then in the state it started from: with the first message exactly when
    an identifier is missing, with the second when both are present and
    neither [SF_KEYS] nor [SF_PRIVATE_KEY_PATH] is set, and with the third
    when both are present, [SF_KEYS] is set and no entry of it holds the
    delimiter. A fallback location alone never leads to the third. *)
Theorem sys_exit_only_for_configuration (E : environment) (st : state)
  (msg : string) (st' : state) :
  script E st = (Raise (SystemExit msg), st') ->
  st' = st
  /\ ((msg = "Missing SF_CLIENT_ID or SF_JWT_USERNAME"
       /\ (nonempty (SF_CLIENT_ID E) = false \/ nonempty (SF_JWT_USERNAME E) = false))
      \/ (msg = "Provide either SF_KEYS (key_id:path,...) or SF_PRIVATE_KEY_PATH"
          /\ nonempty (SF_CLIENT_ID E) = true /\ nonempty (SF_JWT_USERNAME E) = true
          /\ nonempty (SF_KEYS E) = false /\ nonempty (SF_PRIVATE_KEY_PATH E) = false)
      \/ (msg = "No keys found. Set SF_KEYS or SF_PRIVATE_KEY_PATH."
          /\ nonempty (SF_CLIENT_ID E) = true /\ nonempty (SF_JWT_USERNAME E) = true
          /\ nonempty (SF_KEYS E) = true /\ parse_keyring E = Ok [])).
Proof.
  intros Hrun.
  destruct (nonempty (SF_CLIENT_ID E)) eqn:Hc;
    [destruct (nonempty (SF_JWT_USERNAME E)) eqn:Hu|].
  - destruct (nonempty (SF_KEYS E)) eqn:Hk;
      [|destruct (nonempty (SF_PRIVATE_KEY_PATH E)) eqn:Hp].
    + unfold script in Hrun. unfold mbind at 1 in Hrun. unfold M_bind in Hrun.
      rewrite check_config_passes in Hrun by auto.
      destruct (plan_attempts_cases E st)
        as [[Hring Hplan] | (keyring & v & _ & _ & _ & [(m & -> & Hplan) | [_ Hplan]])].
      * rewrite (get_access_token_plan_raises E _ _ _ Hplan) in Hrun.
        injection Hrun as <- <-. split; [reflexivity|]. right. right. auto.
      * rewrite (get_access_token_plan E _ _ _ Hplan) in Hrun.
        destruct (try_candidates_raises E _ _ _ _ _ _ Hrun) as (errs & _ & Hr).
        discriminate Hr.
      * rewrite (get_access_token_plan_raises E _ _ _ Hplan) in Hrun.
        discriminate Hrun.
    + unfold script in Hrun. unfold mbind at 1 in Hrun. unfold M_bind in Hrun.
      rewrite check_config_passes in Hrun by auto.
      destruct (plan_attempts_cases E st)
        as [[Hring Hplan] | (keyring & v & _ & _ & _ & [(m & -> & Hplan) | [_ Hplan]])].
      * unfold parse_keyring in Hring. rewrite Hk, Hp in Hring. discriminate.
      * rewrite (get_access_token_plan E _ _ _ Hplan) in Hrun.
        destruct (try_candidates_raises E _ _ _ _ _ _ Hrun) as (errs & _ & Hr).
        discriminate Hr.
      * rewrite (get_access_token_plan_raises E _ _ _ Hplan) in Hrun.
        discriminate Hrun.
    + unfold script, check_config in Hrun. run_monad.
      rewrite Hc, Hu, Hk, Hp in Hrun. injection Hrun as <- <-.
      split; [reflexivity|]. right. left. auto.
  - unfold script, check_config in Hrun. run_monad.
    rewrite Hc, Hu in Hrun. injection Hrun as <- <-.
    split; [reflexivity|]. left. auto.
  - unfold script, check_config in Hrun. run_monad.
    rewrite Hc in Hrun. injection Hrun as <- <-.
    split; [reflexivity|]. left. auto.
Qed.

Lemma sys_exit_only_for_configuration_witness :
  nonempty (SF_KEYS Example.no_delimiter) = true
  /\ parse_keyring Example.no_delimiter = Ok [].
Proof.
  destruct (sys_exit_only_for_configuration Example.no_delimiter Example.fresh
              "No keys found. Set SF_KEYS or SF_PRIVATE_KEY_PATH." Example.fresh)
    as [_ [[Hmsg _] | [[Hmsg _] | (_ & _ & _ & Hkeys & Hring)]]].
  - vm_compute. reflexivity.
  - discriminate Hmsg.
  - discriminate Hmsg.
  - split; [exact Hkeys | exact Hring].
Defined.





(** ** Where requests go and what they carry *)

Section Requests.

Context (E : environment) (aud : string).

Lemma request_token_posts (c : key_entry) (st : state) (r : result response)
  (st1 : state) :
  request_token E aud (fst c) (snd c) st = (r, st1) ->
  exists evs,
    trace st1 = (trace st ++ evs)%list /\ Forall (posted_for E aud c) evs.
Proof.
  rewrite request_token_steps. simpl.
  destruct (read_bytes E (trace st) (snd c)) as [e|private_key] eqn:Hkey.
  { intros [= <- <-]. eexists [_]. split; [reflexivity|].
    constructor; [exact I | constructor]. }
  destruct (jwt_encode E _ private_key (fst c)) as [e|assertion] eqn:Hsign.
  { intros [= <- <-]. eexists [_]. split; [reflexivity|].
    constructor; [exact I | constructor]. }
  assert (Hpost : posted_for E aud c
                    (EvPost (aud +:+ "/services/oauth2/token") assertion)).
  { split; [reflexivity|]. exists (trace st), private_key. auto. }
  destruct (requests_post E _ _ _); intros [= <- <-];
    eexists [_; _]; simpl; rewrite <- app_assoc;
    (split; [reflexivity|]);
    (constructor; [exact I|]); (constructor; [exact Hpost|]); constructor.
Qed.

Lemma attempt_posts (c : key_entry) (st : state) (r : result iteration)
  (st' : state) :
  attempt E aud (fst c) (snd c) st = (r, st') ->
  exists evs,
    trace st' = (trace st ++ evs)%list
    /\ Forall (fun ev => posted_for E aud c ev) evs.
Proof.
  unfold attempt, try_except, try_body. run_monad.
  destruct (request_token E aud (fst c) (snd c) st) as [[resp|x] st1] eqn:Hreq;
    destruct (request_token_posts c st _ _ Hreq) as (evs1 & Htrace1 & Hevs1).
  2:{ destruct x; intros [= <- <-]; eauto. }
  destruct (handle_response_trace E (fst c) resp st1)
    as (x & st2 & evs & Hhandle & _ & Htrace & Hevs & _).
  rewrite Hhandle.
  assert (Hsave : Forall (posted_for E aud c) evs).
  { clear -Hevs. induction Hevs as [|ev evs Hev _ IH]; constructor; [|exact IH].
    now destruct ev. }
  assert (Hall : trace st2 = (trace st ++ evs1 ++ evs)%list
                 /\ Forall (posted_for E aud c) (evs1 ++ evs)).
  { split; [now rewrite Htrace, Htrace1, <- app_assoc | now apply Forall_app]. }
  destruct x as [outcome | [e|msg]]; intros [= <- <-]; eauto.
Qed.

Lemma try_candidates_posts (ordered : list key_entry) :
  forall (last_err : option last_error) (st : state)
         (r : result (pyval * pyval)) (st' : state),
    try_candidates E aud ordered last_err st = (r, st') ->
    exists evs,
      trace st' = (trace st ++ evs)%list
      /\ Forall (fun ev => is_post ev = true ->
                           exists c, In c ordered /\ posted_for E aud c ev) evs.
Proof.
  induction ordered as [|c rest IH]; intros last_err st r st' Hrun.
  - injection Hrun as _ <-. exists []. rewrite app_nil_r. auto.
  - destruct (attempt_trace E aud (fst c) (snd c) st)
      as (outcome & st1 & evs0 & Hattempt & _).
    destruct (attempt_posts c st _ _ Hattempt) as (evs1 & Htrace1 & Hevs1).
    assert (Hfirst : Forall (fun ev => is_post ev = true ->
                       exists c0, In c0 (c :: rest) /\ posted_for E aud c0 ev) evs1).
    { eapply List.Forall_impl; [|exact Hevs1]. intros ev Hev _. exists c. simpl. auto. }
    rewrite (try_candidates_step E aud c rest last_err st _ _ Hattempt) in Hrun.
    destruct outcome as [a h | err].
    + injection Hrun as _ <-. eauto.
    + destruct (IH _ _ _ _ Hrun) as (evs & Htrace & Hevs).
      exists (evs1 ++ evs)%list. split; [now rewrite Htrace, Htrace1, <- app_assoc|].
      apply Forall_app. split; [exact Hfirst|].
      eapply List.Forall_impl; [|exact Hevs].
      intros ev Hev Hpost. destruct (Hev Hpost) as (c0 & Hin & Hc0).
      exists c0. simpl. auto.
Qed.

End Requests.

(** X11. Every request an acquisition posts goes to the token endpoint of
    the audience derived from [SF_DOMAIN], and the assertion it carries
    was signed for a candidate of the ring: from the bytes read at that
    candidate's location, labelled with its key id, with the configured
    issuer and subject, that same audience, and an expiry 180 seconds
    after the clock was read. Nothing is posted anywhere else. *)
Theorem requests_go_to_the_audience (E : environment) (st : state)
  (keyring : list key_entry) (r : result (pyval * pyval)) (st' : state) :
  parse_keyring E = Ok keyring ->
  get_access_token_via_jwt E st = (r, st') ->
  exists evs : list event,
    trace st' = (trace st ++ evs)%list
    /\ forall url assertion,
         In (EvPost url assertion) evs ->
         url = audience_from_domain (SF_DOMAIN E) +:+ "/services/oauth2/token"
         /\ exists c, In c keyring
              /\ posted_for E (audience_from_domain (SF_DOMAIN E)) c
                   (EvPost url assertion).
Proof.
  intros Hring Hrun.
  destruct (plan_attempts_cases E st)
    as [[_ Hplan] | (keyring' & v & Hring' & _ & _ & [(m & -> & Hplan) | [_ Hplan]])].
  - rewrite (get_access_token_plan_raises E _ _ _ Hplan) in Hrun.
    injection Hrun as _ <-. exists []. rewrite app_nil_r.
    split; [reflexivity | intros url assertion []].
  - rewrite Hring in Hring'. injection Hring' as <-.
    rewrite (get_access_token_plan E _ _ _ Hplan) in Hrun.
    destruct (try_candidates_posts E _ _ _ _ _ _ Hrun) as (evs & Htrace & Hevs).
    exists (EvOpenRead (KEYMAP_PATH E) :: evs). split.
    + rewrite Htrace. simpl. now rewrite <- app_assoc.
    + intros url assertion [Hin | Hin]; [discriminate|].
      rewrite List.Forall_forall in Hevs.
      destruct (Hevs _ Hin eq_refl) as (c & Hc & Hposted).
      split; [exact (proj1 Hposted)|]. exists c. split; [|exact Hposted].
      now apply (attempt_order_In keyring (default VNone (m !! TENANT_ID E))).
  - rewrite (get_access_token_plan_raises E _ _ _ Hplan) in Hrun.
    injection Hrun as _ <-. exists [EvOpenRead (KEYMAP_PATH E)].
    split; [reflexivity|]. intros url assertion [Hin | []]. discriminate.
Qed.

Lemma requests_go_to_the_audience_witness :
  exists evs : list event,
    trace (snd (get_access_token_via_jwt Example.rotation Example.with_hints))
    = (trace Example.with_hints ++ evs)%list
    /\ forall url assertion,
         In (EvPost url assertion) evs ->
         url = audience_from_domain (SF_DOMAIN Example.rotation)
               +:+ "/services/oauth2/token".
Proof.
  destruct (requests_go_to_the_audience Example.rotation Example.with_hints
              [Example.key_2025; Example.key_2030]
              (fst (get_access_token_via_jwt Example.rotation Example.with_hints))
              (snd (get_access_token_via_jwt Example.rotation Example.with_hints)))
    as (evs & Htrace & Hposts).
  - vm_compute. reflexivity.
  - apply surjective_pairing.
  - exists evs. split; [exact Htrace|].
    intros url assertion Hin. exact (proj1 (Hposts url assertion Hin)).
Defined.

(** ** Blank identifiers *)

Lemma strip_blank (s : string) : nonempty (strip s) = negb (blank s).
Proof.
  unfold strip, blank. induction s as [|c s IH]; [reflexivity|].
  simpl lstrip. simpl list_ascii_of_string. simpl forallb.
  destruct (py_isspace c) eqn:Hc; [exact IH|].
  destruct (rstrip_head c s Hc) as (r & ->). reflexivity.
Qed.

(** X12. An identifier whose environment variable is not set, or holds
    nothing but white space, counts as missing: the script ends in the
    first [sys.exit] in the state it started from, whatever else is
    configured. *)
Theorem blank_identifier_is_missing (E : environment) (st : state) :
  unset_or_blank (environ E "SF_CLIENT_ID") = true
  \/ unset_or_blank (environ E "SF_JWT_USERNAME") = true ->
  script E st = (Raise (SystemExit "Missing SF_CLIENT_ID or SF_JWT_USERNAME"), st).
Proof.
  intros Hblank.
  assert (Hmissing : nonempty (SF_CLIENT_ID E) = false
                     \/ nonempty (SF_JWT_USERNAME E) = false).
  { unfold SF_CLIENT_ID, SF_JWT_USERNAME, getenv.
    destruct Hblank as [Hblank | Hblank]; [left | right];
      rewrite strip_blank;
      match goal with
      | |- context [environ E ?name] =>
          destruct (environ E name) as [v|]; simpl in *;
          [now rewrite Hblank | reflexivity]
      end. }
  unfold script, check_config. run_monad.
  destruct Hmissing as [-> | Hu]; [reflexivity|].
  rewrite Hu. now destruct (nonempty (SF_CLIENT_ID E)).
Qed.

Lemma blank_identifier_is_missing_witness :
  script Example.blank_client_id Example.fresh
  = (Raise (SystemExit "Missing SF_CLIENT_ID or SF_JWT_USERNAME"), Example.fresh).
Proof.
  apply (blank_identifier_is_missing Example.blank_client_id Example.fresh).
  left. vm_compute. reflexivity.
Defined.

(** * A hint saved for a key that yielded no token *)

(** C3. The claim does not hold of the code at this input. The snapshot
    holds the hint 2025 for the tenant [acme]; the provider answers each
    of the two candidates with status 200 and a JSON object without
    [access_token]. Both candidates are recorded as failed, with the
    [KeyError] of line 121, and the call raises the [RuntimeError] that
    names the tenant and prints the last error only, as the claim says;
    but the record was updated and saved for each of them before the
    field was read (lines 119-120), so the snapshot now holds the hint
    2030: the failed call did not leave the store unchanged. *)
Lemma exhaustion_after_incomplete_replies :
  all_recorded Example.incomplete_replies "https://login.salesforce.com"
    [Example.key_2025; Example.key_2030] Example.planned
    [RaisedError "KeyError" (Example.quoting_repr "access_token");
     RaisedError "KeyError" (Example.quoting_repr "access_token")]
    (snd (get_access_token_via_jwt Example.incomplete_replies Example.with_hints))
  /\ get_access_token_via_jwt Example.incomplete_replies Example.with_hints
     = (Raise (Exception (PyExc "RuntimeError"
          ("JWT exchange failed for tenant='acme'. Last error: ('KeyError', "
           +:+ Example.dq +:+ "'access_token'" +:+ Example.dq +:+ ")"))),
        snd (get_access_token_via_jwt Example.incomplete_replies Example.with_hints))
  /\ snapshot Example.with_hints
     = FileText (inr (VDict (<["globex" := VStr "2025"]>
                               (<["acme" := VStr "2025"]> ∅))))
  /\ snapshot (snd (get_access_token_via_jwt Example.incomplete_replies
                      Example.with_hints))
     = FileText (inr (VDict (<["globex" := VStr "2025"]>
                               (<["acme" := VStr "2030"]> ∅)))).
Proof.
  split; [|split; [|split]].
  - apply all_recorded_cons with
      (st1 := snd (attempt Example.incomplete_replies "https://login.salesforce.com"
                     "2025" "/keys/2025.pem" Example.planned)).
    + vm_compute. reflexivity.
    + apply all_recorded_cons with
        (st1 := snd (get_access_token_via_jwt Example.incomplete_replies
                       Example.with_hints));
        [|apply all_recorded_nil].
      vm_compute. reflexivity.
  - vm_compute. reflexivity.
  - vm_compute. reflexivity.
  - vm_compute. reflexivity.
Qed.

(** C9. The claim does not hold of the code at this input. The snapshot
    holds a hint for the tenant [globex] only; the provider answers the
    2025 key with status 200 and a JSON object without [access_token], and
    the 2030 key with the token. The call returns the pair obtained with
    the 2030 key, and [json.dump] was given two records: first the one
    with the tenant [acme] set to 2025, the id of a candidate that did not
    succeed, then the one with [acme] set to 2030. In both the entry of
    [globex] is what it was. *)
Lemma incomplete_reply_saves_failed_candidate :
  get_access_token_via_jwt Example.first_reply_incomplete Example.with_globex
  = (Ok (VStr "00Dxx0000001gPL", VStr "https://acme.my.salesforce.com"),
     snd (get_access_token_via_jwt Example.first_reply_incomplete Example.with_globex))
  /\ fst (load_keymap Example.first_reply_incomplete Example.with_globex)
     = Ok (VDict (<["globex" := VStr "2025"]> ∅))
  /\ dumps (trace (snd (get_access_token_via_jwt Example.first_reply_incomplete
                          Example.with_globex)))
     = [VDict (<["acme" := VStr "2025"]> (<["globex" := VStr "2025"]> ∅));
        VDict (<["acme" := VStr "2030"]> (<["globex" := VStr "2025"]> ∅))].
Proof.
  split; [|split]; vm_compute; reflexivity.
Qed.

(** ** Every record that is written *)

Section Saves.

Context (E : environment) (aud : string).

Lemma dumps_app (evs evs' : list event) :
  dumps (evs ++ evs') = (dumps evs ++ dumps evs')%list.
Proof. unfold dumps. apply flat_map_app. Qed.

Lemma quiet_dumps (evs : list event) :
  Forall (fun ev => is_save_event ev = false) evs -> dumps evs = [].
Proof.
  induction 1 as [|ev evs Hev _ IH]; [reflexivity|].
  destruct ev; try discriminate; exact IH.
Qed.

(** [save_keymap(m)] gives [json.dump] nothing but [m]. *)
Lemma save_keymap_dumps (m : pyval) (st : state) :
  exists st' evs,
    save_keymap E m st = (Ok tt, st')
    /\ trace st' = (trace st ++ evs)%list
    /\ Forall (fun v => v = m) (dumps evs).
Proof.
  unfold save_keymap, try_except, mkdir, open_keymap_w, json_dump, history,
    effect, write_snapshot. run_monad. fold (save_parent E). simpl.
  destruct (mkdir_fault E (trace st) (save_parent E)); simpl.
  { eexists _, [_]. split; [reflexivity|]. split; [reflexivity | constructor]. }
  destruct (open_write_fault E _ (KEYMAP_PATH E)); simpl.
  { eexists _, [_; _]. split; [reflexivity|]. simpl.
    rewrite <- app_assoc. split; [reflexivity | constructor]. }
  destruct (json_dump_fault E _ m); simpl;
    (eexists _, [_; _; _]; split; [reflexivity|]; simpl;
     rewrite <- !app_assoc; split; [reflexivity | repeat constructor]).
Qed.

(** One pass through the loop body gives [json.dump] nothing but the dict
    bound to [keymap] with the tenant set to the candidate's id. *)
Lemma attempt_dumps (kid key_path : string) (st : state) (m : gmap string pyval)
  (r : result iteration) (st' : state) :
  keymap st = VDict m ->
  attempt E aud kid key_path st = (r, st') ->
  exists evs,
    trace st' = (trace st ++ evs)%list
    /\ Forall (fun v => v = VDict (<[TENANT_ID E := VStr kid]> m)) (dumps evs).
Proof.
  intros Hkm. unfold attempt, try_except, try_body. run_monad.
  destruct (request_token E aud kid key_path st) as [[resp|x] st1] eqn:Hreq;
    destruct (request_token_frame E aud _ _ _ _ _ Hreq)
      as (_ & Hkm1 & (evs1 & Htrace1 & Hquiet) & _);
    assert (Hnone : dumps (EvOpenRead key_path :: evs1) = [])
      by (apply quiet_dumps; constructor; [reflexivity | exact Hquiet]).
  2:{ destruct x; intros [= <- <-]; eexists; (split; [exact Htrace1|]);
        rewrite Hnone; constructor. }
  destruct (resp_ok resp) eqn:Hok.
  2:{ rewrite handle_response_rejected by exact Hok.
      intros [= <- <-]. eexists. split; [exact Htrace1|].
      rewrite Hnone. constructor. }
  destruct (resp_json resp) as [e|tok] eqn:Hjson.
  { rewrite (handle_response_undecodable E _ _ _ e Hok Hjson).
    intros [= <- <-]. eexists. split; [exact Htrace1|].
    rewrite Hnone. constructor. }
  rewrite (handle_response_accepted E _ _ _ tok m Hok Hjson) by congruence.
  destruct (save_keymap_dumps (VDict (<[TENANT_ID E := VStr kid]> m))
              (set_keymap (VDict (<[TENANT_ID E := VStr kid]> m)) st1))
    as (st2 & evs & Hsave & Htrace & Hevs).
  rewrite Hsave. simpl.
  assert (Hall : trace st2 = (trace st ++ (EvOpenRead key_path :: evs1) ++ evs)%list
                 /\ Forall (fun v => v = VDict (<[TENANT_ID E := VStr kid]> m))
                           (dumps ((EvOpenRead key_path :: evs1) ++ evs))).
  { split.
    - rewrite Htrace. simpl. rewrite Htrace1, <- app_assoc. reflexivity.
    - rewrite dumps_app, Hnone. exact Hevs. }
  destruct (py_getitem _ tok "access_token");
    [|destruct (py_getitem _ tok "instance_url")];
    intros [= <- <-]; eauto.
Qed.

Lemma try_candidates_dumps (ordered : list key_entry) :
  forall (last_err : option last_error) (st : state) (m : gmap string pyval)
         (r : result (pyval * pyval)) (st' : state),
    keymap st = VDict m \/ (exists k, keymap st = VDict (<[TENANT_ID E := VStr k]> m)) ->
    try_candidates E aud ordered last_err st = (r, st') ->
    exists evs,
      trace st' = (trace st ++ evs)%list
      /\ Forall (fun v => exists c, In c ordered
                          /\ v = VDict (<[TENANT_ID E := VStr (fst c)]> m))
                (dumps evs).
Proof.
  induction ordered as [|[kid key_path] rest IH];
    intros last_err st m r st' Hkm Hrun.
  - injection Hrun as _ <-. exists []. rewrite app_nil_r. split; [reflexivity|].
    constructor.
  - assert (Hdict : exists m0, keymap st = VDict m0
              /\ <[TENANT_ID E := VStr kid]> m0 = <[TENANT_ID E := VStr kid]> m).
    { destruct Hkm as [Hkm | [k Hkm]]; eexists; (split; [exact Hkm|]);
        [reflexivity | apply insert_insert_eq]. }
    destruct Hdict as (m0 & Hm0 & Hins).
    destruct (attempt_outcome E aud kid key_path st m0 Hm0)
      as (outcome & st1 & Hattempt & Hout).
    destruct (attempt_dumps kid key_path st m0 _ _ Hm0 Hattempt)
      as (evs1 & Htrace1 & Hevs1).
    rewrite Hins in Hout, Hevs1.
    assert (Hfirst : Forall (fun v => exists c, In c ((kid, key_path) :: rest)
                               /\ v = VDict (<[TENANT_ID E := VStr (fst c)]> m))
                            (dumps evs1)).
    { eapply List.Forall_impl; [|exact Hevs1].
      intros v ->. exists (kid, key_path). split; [now left | reflexivity]. }
    rewrite (try_candidates_step E aud (kid, key_path) _ _ _ _ _ Hattempt) in Hrun.
    destruct outcome as [a h | err].
    + injection Hrun as _ <-. eauto.
    + assert (Hkm1 : keymap st1 = VDict m
                     \/ (exists k, keymap st1 = VDict (<[TENANT_ID E := VStr k]> m))).
      { destruct Hout as [Hout | Hout]; [|eauto].
        rewrite Hout, <- Hm0. exact Hkm. }
      destruct (IH _ _ _ _ _ Hkm1 Hrun) as (evs & Htrace & Hevs).
      exists (evs1 ++ evs)%list.
      split; [now rewrite Htrace, Htrace1, <- app_assoc|].
      rewrite dumps_app. apply Forall_app. split; [exact Hfirst|].
      eapply List.Forall_impl; [|exact Hevs].
      intros v (c & Hin & ->). exists c. split; [now right | reflexivity].
Qed.

End Saves.

(** X15. Every record an acquisition gives to [json.dump], however the
    call ends, is the dict [load_keymap] returned with nothing but the
    entry of the requesting tenant added or overwritten, set to the id of
    a candidate of the ring: the entry of every other tenant is what it
    was, and every tenant that had an entry still has one. *)
Theorem every_written_record_keeps_other_tenants (E : environment) (st : state)
  (keyring : list key_entry) (r : result (pyval * pyval)) (st' : state) :
  parse_keyring E = Ok keyring ->
  get_access_token_via_jwt E st = (r, st') ->
  exists evs : list event,
    trace st' = (trace st ++ evs)%list
    /\ forall v : pyval,
         In v (dumps evs) ->
         exists (m : gmap string pyval) (c : key_entry),
           load_keymap E st = (Ok (VDict m), log (EvOpenRead (KEYMAP_PATH E)) st)
           /\ In c keyring
           /\ v = VDict (<[TENANT_ID E := VStr (fst c)]> m)
           /\ (forall tenant : string, tenant <> TENANT_ID E ->
                 (<[TENANT_ID E := VStr (fst c)]> m) !! tenant = m !! tenant)
           /\ (forall tenant : string, is_Some (m !! tenant) ->
                 is_Some ((<[TENANT_ID E := VStr (fst c)]> m) !! tenant)).
Proof.
  intros Hring Hrun.
  destruct (plan_attempts_cases E st)
    as [[_ Hplan] | (keyring' & v0 & Hring' & _ & Hload & [(m & -> & Hplan) | [_ Hplan]])].
  - rewrite (get_access_token_plan_raises E _ _ _ Hplan) in Hrun.
    injection Hrun as _ <-. exists []. rewrite app_nil_r.
    split; [reflexivity | intros v []].
  - rewrite Hring in Hring'. injection Hring' as <-.
    rewrite (get_access_token_plan E _ _ _ Hplan) in Hrun.
    assert (Hkm : keymap (set_keymap (VDict m) (log (EvOpenRead (KEYMAP_PATH E)) st))
                  = VDict m
                  \/ (exists k, keymap (set_keymap (VDict m)
                                          (log (EvOpenRead (KEYMAP_PATH E)) st))
                                = VDict (<[TENANT_ID E := VStr k]> m)))
      by (left; reflexivity).
    destruct (try_candidates_dumps E _ _ None _ m _ _ Hkm Hrun)
      as (evs & Htrace & Hevs).
    exists (EvOpenRead (KEYMAP_PATH E) :: evs). split.
    + rewrite Htrace. simpl. now rewrite <- app_assoc.
    + intros v Hin. simpl in Hin. rewrite List.Forall_forall in Hevs.
      destruct (Hevs v Hin) as (c & Hc & ->).
      exists m, c. split; [exact Hload|]. split.
      { now apply (attempt_order_In keyring (default VNone (m !! TENANT_ID E))). }
      split; [reflexivity|]. split.
      * intros tenant Hother. now apply lookup_insert_ne.
      * intros tenant Hsome. rewrite lookup_insert. now case_decide.
  - rewrite (get_access_token_plan_raises E _ _ _ Hplan) in Hrun.
    injection Hrun as _ <-. exists [EvOpenRead (KEYMAP_PATH E)].
    split; [reflexivity | intros v []].
Qed.

Lemma every_written_record_keeps_other_tenants_witness :
  exists evs : list event,
    trace (snd (get_access_token_via_jwt Example.first_reply_incomplete
                  Example.with_globex))
    = (trace Example.with_globex ++ evs)%list
    /\ forall v : pyval,
         In v (dumps evs) ->
         exists (m : gmap string pyval) (c : key_entry),
           v = VDict (<[TENANT_ID Example.first_reply_incomplete := VStr (fst c)]> m)
           /\ (<[TENANT_ID Example.first_reply_incomplete := VStr (fst c)]> m)
                !! "globex" = m !! "globex".
Proof.
  destruct (every_written_record_keeps_other_tenants Example.first_reply_incomplete
              Example.with_globex [Example.key_2025; Example.key_2030]
              (fst (get_access_token_via_jwt Example.first_reply_incomplete
                      Example.with_globex))
              (snd (get_access_token_via_jwt Example.first_reply_incomplete
                      Example.with_globex)))
    as (evs & Htrace & Hrecords).
  - vm_compute. reflexivity.
  - apply surjective_pairing.
  - exists evs. split; [exact Htrace|]. intros v Hin.
    destruct (Hrecords v Hin) as (m & c & _ & _ & Hv & Hframe & _).
    exists m, c. split; [exact Hv|]. apply Hframe. vm_compute. discriminate.
Defined.
